(** * AVR_I2C: the TWI master driver of [Sources/i2c.c]

    The driver talks to the two-wire interface of an AVR through four
    memory-mapped registers.  The embedding below runs the C functions on a
    machine made of a peripheral (any implementation of the register
    interface), the caller's RAM, and the record of every volatile register
    access the code performs.  Bus-level statements (Start, Stop, byte
    written, byte read with ACK or NACK) are read off that record. *)

From Stdlib Require Import ZArith List Bool Lia.
Import ListNotations.

Local Open Scope Z_scope.

(** ** Machine integers *)

(** Conversion to [uint8_t] and [uint16_t]. *)
Definition u8 (x : Z) : Z := x mod 256.
Definition u16 (x : Z) : Z := x mod 65536.

(** [(1 << b)] as the C code writes it. *)
Definition bit (b : Z) : Z := Z.shiftl 1 b.

(** ** Registers and their bit names *)

(** The TWI registers the driver touches. *)
Inductive reg : Type := TWBR | TWSR | TWCR | TWDR.

Definition reg_eqb (a b : reg) : bool :=
  match a, b with
  | TWBR, TWBR | TWSR, TWSR | TWCR, TWCR | TWDR, TWDR => true
  | _, _ => false
  end.

(** Bit numbers named by the source.  They come from the device header of
    the tool chain ([<avr/io.h>], pulled in through [aKaReZa.h]), which is
    not part of the repository, so the development is parametric in them. *)
Class TwiBits : Type := {
  TWINT : Z;
  TWEA : Z;
  TWSTA : Z;
  TWSTO : Z;
  TWEN : Z;
  TWPS0 : Z;
  TWPS1 : Z
}.

(** What the proofs need of a layout: the five TWCR bits are distinct
    positions of one byte. *)
Definition twcr_layout_ok (B : TwiBits) : bool :=
  forallb (fun b => (0 <=? b) && (b <? 8)) [TWINT; TWEA; TWSTA; TWSTO; TWEN]
  && negb (TWINT =? TWEA) && negb (TWINT =? TWSTA) && negb (TWINT =? TWSTO)
  && negb (TWINT =? TWEN) && negb (TWEA =? TWSTA) && negb (TWEA =? TWSTO)
  && negb (TWEA =? TWEN) && negb (TWSTA =? TWSTO) && negb (TWSTA =? TWEN)
  && negb (TWSTO =? TWEN).

(** The two prescaler bits of TWSR are distinct positions of one byte. *)
Definition twsr_layout_ok (B : TwiBits) : bool :=
  (0 <=? TWPS0) && (TWPS0 <? 8) && (0 <=? TWPS1) && (TWPS1 <? 8)
  && negb (TWPS0 =? TWPS1).

(** The layout of the ATmega328, the part the source names as its target. *)
Definition atmega328 : TwiBits :=
  {| TWINT := 7; TWEA := 6; TWSTA := 5; TWSTO := 4; TWEN := 2;
     TWPS0 := 0; TWPS1 := 1 |}.

(** Constants of [i2c.h]. *)
Definition __i2c_WriteCmd : Z := 0.
Definition __i2c_ReadCmd : Z := 1.
Definition __i2c_ackCmd : Z := 1.
Definition __i2c_nackCmd : Z := 0.

(** Conversion of an [int] to [bool] at a call. *)
Definition to_bool (x : Z) : bool := negb (x =? 0).

(** ** The peripheral and the machine *)

(** The register interface of the peripheral: a store changes its state, a
    load returns a value and may change its state too (the registers are
    volatile). *)
Class Peripheral : Type := {
  Dev : Type;
  dev_store : reg -> Z -> Dev -> Dev;
  dev_load : reg -> Dev -> Z * Dev
}.

(** One volatile access, with the value stored or loaded. *)
Inductive access : Type :=
| Store (r : reg) (v : Z)
| Load (r : reg) (v : Z).

Definition access_reg (e : access) : reg :=
  match e with Store r _ => r | Load r _ => r end.

Section Driver.

Context {B : TwiBits} {P : Peripheral}.

(** The peripheral and the data memory the caller's pointers point into. *)
Record machine : Type := {
  dev : Dev;
  ram : Z -> Z
}.

(** A computation returns a value, the next machine and the register
    accesses it made, in order; [None] when a polling loop was not
    released within its budget. *)
Definition M (A : Type) : Type := machine -> option (A * machine * list access).

Definition ret {A : Type} (a : A) : M A := fun s => Some (a, s, []).

Definition bind {A C : Type} (m : M A) (f : A -> M C) : M C :=
  fun s =>
    match m s with
    | None => None
    | Some (a, s1, t1) =>
        match f a s1 with
        | None => None
        | Some (c, s2, t2) => Some (c, s2, t1 ++ t2)
        end
    end.

Notation "x <- m ;; f" := (bind m (fun x => f))
  (at level 61, m at next level, right associativity).
Notation "m ;; f" := (bind m (fun _ => f))
  (at level 61, right associativity).

(** [REG = v] on an 8-bit volatile register. *)
Definition store (r : reg) (v : Z) : M unit :=
  fun s => Some (tt, {| dev := dev_store r (u8 v) (dev s); ram := ram s |},
                 [Store r (u8 v)]).

(** Reading an 8-bit volatile register. *)
Definition load (r : reg) : M Z :=
  fun s =>
    let (v, d) := dev_load r (dev s) in
    Some (u8 v, {| dev := d; ram := ram s |}, [Load r (u8 v)]).

(** [*p] and [*p = v] on a [uint8_t *]. *)
Definition peek (p : Z) : M Z := fun s => Some (u8 (ram s p), s, []).

Definition poke (p v : Z) : M unit :=
  fun s => Some (tt, {| dev := dev s;
                        ram := fun q => if q =? p then u8 v else ram s q |}, []).

(** ** Macros of [aKaReZa.h] *)

(** Modelled from the spec: the macro [bitSet] of [aKaReZa.h], which is not
    in the repository; "single-bit set on a control register", a
    read-modify-write of the register. *)
Definition bitSet (r : reg) (b : Z) : M unit :=
  v <- load r ;; store r (Z.lor v (bit b)).

(** Modelled from the spec: the macro [bitClear] of [aKaReZa.h]; "single-bit
    clear on a control register", a read-modify-write of the register. *)
Definition bitClear (r : reg) (b : Z) : M unit :=
  v <- load r ;; store r (Z.land v (Z.lnot (bit b))).

(** Modelled from the spec: the macro [bitWaitHigh] of [aKaReZa.h]; "blocks
    (polls) until the named bit becomes 1; no timeout, no escape".  Every
    iteration reads the register once; [fuel] bounds the number of reads
    the model follows. *)
Fixpoint bitWaitHigh (fuel : nat) (r : reg) (b : Z) : M unit :=
  match fuel with
  | O => fun _ => None
  | S fuel' =>
      v <- load r ;;
      if Z.testbit v b then ret tt else bitWaitHigh fuel' r b
  end.

(** ** [i2c.c] *)

Variable fuel : nat.

Definition i2c_Init : M unit :=
  bitClear TWSR TWPS0 ;;
  bitClear TWSR TWPS1 ;;
  store TWBR 72 ;;
  bitSet TWCR TWEN.

Definition i2c_Start : M unit :=
  store TWCR (Z.lor (Z.lor (bit TWINT) (bit TWEN)) (bit TWSTA)) ;;
  bitWaitHigh fuel TWCR TWINT.

Definition i2c_Stop : M unit :=
  store TWCR (Z.lor (Z.lor (bit TWINT) (bit TWEN)) (bit TWSTO)).

Definition i2c_Write (_Data : Z) : M unit :=
  store TWDR (u8 _Data) ;;
  store TWCR (Z.lor (bit TWINT) (bit TWEN)) ;;
  bitWaitHigh fuel TWCR TWINT.

Definition i2c_Read (_ackNack : bool) : M Z :=
  store TWCR (Z.lor (Z.lor (bit TWINT) (Z.shiftl (Z.b2z _ackNack) TWEA))
                    (bit TWEN)) ;;
  bitWaitHigh fuel TWCR TWINT ;;
  load TWDR.

(** [while(_dataLength) { i2c_Write( *_Data++ ); _dataLength--; }] with the
    counter as the number of iterations left. *)
Fixpoint write_loop (_dataLength : nat) (_Data : Z) : M unit :=
  match _dataLength with
  | O => ret tt
  | S n =>
      v <- peek _Data ;;
      i2c_Write v ;;
      write_loop n (_Data + 1)
  end.

(** [while(_dataLength) { *_Data++ = i2c_Read((_dataLength == 1) ? nack : ack);
    _dataLength--; }]. *)
Fixpoint read_loop (_dataLength : nat) (_Data : Z) : M unit :=
  match _dataLength with
  | O => ret tt
  | S n =>
      v <- i2c_Read (to_bool (if Nat.eqb _dataLength 1
                              then __i2c_nackCmd else __i2c_ackCmd)) ;;
      poke _Data v ;;
      read_loop n (_Data + 1)
  end.

(** The iterations a [uint16_t] counter allows. *)
Definition iterations (_dataLength : Z) : nat := Z.to_nat (u16 _dataLength).

Definition i2c_writeAddress (_address _Data _dataLength : Z) : M unit :=
  i2c_Start ;;
  i2c_Write (Z.lor (Z.shiftl (u8 _address) 1) __i2c_WriteCmd) ;;
  write_loop (iterations _dataLength) _Data ;;
  i2c_Stop.

Definition i2c_readAdress (_address _Data _dataLength : Z) : M unit :=
  i2c_Start ;;
  i2c_Write (Z.lor (Z.shiftl (u8 _address) 1) __i2c_ReadCmd) ;;
  read_loop (iterations _dataLength) _Data ;;
  i2c_Stop.

Definition i2c_readSequential
    (_address _txData _txDataLenght _rxData _rxDataLenght : Z) : M unit :=
  i2c_Start ;;
  i2c_Write (Z.lor (Z.shiftl (u8 _address) 1) __i2c_WriteCmd) ;;
  write_loop (iterations _txDataLenght) _txData ;;
  i2c_Start ;;
  i2c_Write (Z.lor (Z.shiftl (u8 _address) 1) __i2c_ReadCmd) ;;
  read_loop (iterations _rxDataLenght) _rxData ;;
  i2c_Stop.

End Driver.

Arguments machine {P}.
Arguments M {P} A.

(** ** Reading the bus off the register accesses *)

(** The bus primitives of the protocol. *)
Inductive bus_op : Type :=
| Start
| Stop
| WriteByte (b : Z)
| ReadByte (ack : bool).

(** The operation a store to TWCR commands, once TWINT and TWEN are written
    as 1: a START when TWSTA is set, a STOP when TWSTO is set, otherwise one
    byte is clocked, out of TWDR when the code has loaded TWDR since the
    last command, in (answered by ACK when TWEA is set) when it has not.
    [pending] is the byte stored to TWDR and not yet sent. *)
Definition command {B : TwiBits} (pending : option Z) (v : Z) : bus_op :=
  if Z.testbit v TWSTA then Start
  else if Z.testbit v TWSTO then Stop
  else match pending with
       | Some b => WriteByte b
       | None => ReadByte (Z.testbit v TWEA)
       end.

Fixpoint decode {B : TwiBits} (pending : option Z) (t : list access)
  : list bus_op :=
  match t with
  | [] => []
  | Store TWDR v :: t' => decode (Some v) t'
  | Store TWCR v :: t' =>
      if Z.testbit v TWINT && Z.testbit v TWEN
      then command pending v :: decode None t'
      else decode pending t'
  | _ :: t' => decode pending t'
  end.

(** The byte left in TWDR, stored and not sent, after the accesses [t]. *)
Fixpoint pending_after {B : TwiBits} (pending : option Z) (t : list access)
  : option Z :=
  match t with
  | [] => pending
  | Store TWDR v :: t' => pending_after (Some v) t'
  | Store TWCR v :: t' =>
      if Z.testbit v TWINT && Z.testbit v TWEN
      then pending_after None t'
      else pending_after pending t'
  | _ :: t' => pending_after pending t'
  end.

(** The bus operations of a record of accesses that starts with no byte
    pending. *)
Definition bus_ops {B : TwiBits} (t : list access) : list bus_op :=
  decode None t.

(** The values the code read from the data register, in order. *)
Fixpoint twdr_loads (t : list access) : list Z :=
  match t with
  | [] => []
  | Load TWDR v :: t' => v :: twdr_loads t'
  | _ :: t' => twdr_loads t'
  end.

(** Whether the status register is accessed. *)
Definition touches_status (t : list access) : bool :=
  existsb (fun e => reg_eqb (access_reg e) TWSR) t.

Definition is_start (o : bus_op) : bool :=
  match o with Start => true | _ => false end.

Definition is_stop (o : bus_op) : bool :=
  match o with Stop => true | _ => false end.

Definition count_ops (f : bus_op -> bool) (l : list bus_op) : nat :=
  length (filter f l).

(** What a record of accesses amounts to: the bus operations [ops], the
    bytes [rx] read from TWDR, no byte left pending, TWSR never accessed. *)
Definition amounts_to {B : TwiBits} (t : list access) (ops : list bus_op) (rx : list Z)
  : Prop :=
  bus_ops t = ops /\ pending_after None t = None
  /\ twdr_loads t = rx /\ touches_status t = false.

(** A record made of reads of TWCR alone, as a polling loop leaves. *)
Definition polls (t : list access) : Prop :=
  Forall (fun e => exists v, e = Load TWCR v) t.

(** ** The sequences the specification names *)

(** The ACK/NACK decisions of a read phase of [c] bytes: ACK [c-1] times,
    then one NACK; none when [c = 0]. *)
Definition ack_pattern (c : nat) : list bool :=
  match c with
  | O => []
  | S k => repeat true k ++ [false]
  end.

(** The address byte of a 7-bit address and a direction bit. *)
Definition address_byte (a dir : Z) : Z := Z.lor (Z.shiftl a 1) dir.

(** The value and the machine a run ends with, its accesses left out. *)
Definition final {P : Peripheral} {A : Type}
    (r : option (A * machine * list access)) : option (A * machine) :=
  match r with
  | Some (a, s, _) => Some (a, s)
  | None => None
  end.

(** The bytes of the buffer of [n] bytes at [p]. *)
Fixpoint buffer (m : Z -> Z) (p : Z) (n : nat) : list Z :=
  match n with
  | O => []
  | S k => m p :: buffer m (p + 1) k
  end.

(** The bytes a read or write of the buffer sees. *)
Definition bytes_at (m : Z -> Z) (p : Z) (n : nat) : list Z :=
  map u8 (buffer m p n).

(** The write phase: Start, address with the write bit, the data bytes. *)
Definition write_phase (a : Z) (d : list Z) : list bus_op :=
  [Start; WriteByte (address_byte a 0)] ++ map WriteByte d.

(** The read phase: Start, address with the read bit, [c] reads. *)
Definition read_phase (a : Z) (c : nat) : list bus_op :=
  [Start; WriteByte (address_byte a 1)] ++ map ReadByte (ack_pattern c).

(** ** What is assumed of a peripheral *)

Section Assumptions.

Context {B : TwiBits} {P : Peripheral}.

(** The peripheral raises TWINT within [fuel] reads of TWCR after every
    command other than STOP: a store to TWCR with TWINT and TWEN written as
    1 and TWSTO as 0. *)
Definition responsive (fuel : nat) : Prop :=
  forall (s : machine) (v : Z),
    Z.testbit v TWINT = true -> Z.testbit v TWEN = true ->
    Z.testbit v TWSTO = false ->
    bitWaitHigh fuel TWCR TWINT
      {| dev := dev_store TWCR v (dev s); ram := ram s |} <> None.

(** The configuration the initialisation sets: the two prescaler bits, the
    bit rate register, the enable bit. *)
Record twi_config : Type := {
  ps0 : bool;
  ps1 : bool;
  rate : Z;
  enabled : bool
}.

(** The registers hold the configuration: loads leave it alone and show the
    prescaler bits in TWSR, a store to TWSR sets the prescaler bits, a
    store to TWBR the rate, a store to TWCR the enable bit, a store to TWDR
    nothing. *)
Record holds_config (config : Dev -> twi_config) : Prop := {
  load_keeps : forall r d, config (snd (dev_load r d)) = config d;
  load_shows_ps0 : forall d,
    Z.testbit (u8 (fst (dev_load TWSR d))) TWPS0 = ps0 (config d);
  load_shows_ps1 : forall d,
    Z.testbit (u8 (fst (dev_load TWSR d))) TWPS1 = ps1 (config d);
  store_TWSR : forall v d,
    config (dev_store TWSR v d) =
    {| ps0 := Z.testbit v TWPS0; ps1 := Z.testbit v TWPS1;
       rate := rate (config d); enabled := enabled (config d) |};
  store_TWBR : forall v d,
    config (dev_store TWBR v d) =
    {| ps0 := ps0 (config d); ps1 := ps1 (config d);
       rate := v; enabled := enabled (config d) |};
  store_TWCR : forall v d,
    config (dev_store TWCR v d) =
    {| ps0 := ps0 (config d); ps1 := ps1 (config d);
       rate := rate (config d); enabled := Z.testbit v TWEN |};
  store_TWDR : forall v d, config (dev_store TWDR v d) = config d
}.

End Assumptions.

(** ** A simulated peripheral

    A TWI peripheral with the ATmega328 layout, wired to one slave: a
    register file with an address pointer.  A byte written to the slave sets
    the pointer; each byte read comes from the register under the pointer,
    which then moves on.  The peripheral takes [latency] reads of TWCR to
    raise TWINT after a command, never raises it after a STOP, and records
    in TWSR whether the slave acknowledged. *)
Module Sim.

Record slave : Type := {
  own_address : Z;
  registers : Z -> Z
}.

(** Where the bus is: released, waiting for an address byte, or in a data
    phase with the slave answering or not. *)
Inductive phase : Type :=
| Idle
| Addressing
| Transmit (answered : bool)
| Receive (answered : bool).

(** Status codes of the master modes. *)
Inductive status : Type :=
| NoInfo | StartSent | RepeatedStartSent
| SlaW_Ack | SlaW_Nack | DataSent_Ack | DataSent_Nack
| SlaR_Ack | SlaR_Nack | DataReceived_Ack | DataReceived_Nack.

Definition status_code (c : status) : Z :=
  match c with
  | NoInfo => 248 | StartSent => 8 | RepeatedStartSent => 16
  | SlaW_Ack => 24 | SlaW_Nack => 32 | DataSent_Ack => 40
  | DataSent_Nack => 48 | SlaR_Ack => 64 | SlaR_Nack => 72
  | DataReceived_Ack => 80 | DataReceived_Nack => 88
  end.

Record twi : Type := {
  twbr : Z;
  twps0 : bool;
  twps1 : bool;
  twsr : status;
  twen : bool;
  twea : bool;
  twint : bool;
  busy : option nat;
  twdr : Z;
  bus : phase;
  pointer : Z
}.

Definition power_on : twi :=
  {| twbr := 0; twps0 := false; twps1 := false; twsr := NoInfo;
     twen := false; twea := false; twint := false; busy := None;
     twdr := 255; bus := Idle; pointer := 0 |}.

(** The effect on the bus of a command written to TWCR. *)
Definition execute (sl : slave) (latency : nat) (v : Z) (d : twi) : twi :=
  let d := {| twbr := twbr d; twps0 := twps0 d; twps1 := twps1 d;
              twsr := twsr d; twen := true; twea := Z.testbit v 6;
              twint := false; busy := Some latency; twdr := twdr d;
              bus := bus d; pointer := pointer d |} in
  let next (st : status) (data : Z) (ph : phase) (ptr : Z) (job : option nat) :=
    {| twbr := twbr d; twps0 := twps0 d; twps1 := twps1 d; twsr := st;
       twen := twen d; twea := twea d; twint := twint d; busy := job;
       twdr := data; bus := ph; pointer := ptr |} in
  if Z.testbit v 5 then
    next (match bus d with Idle => StartSent | _ => RepeatedStartSent end)
         (twdr d) Addressing (pointer d) (busy d)
  else if Z.testbit v 4 then
    next NoInfo (twdr d) Idle (pointer d) None
  else
    match bus d with
    | Idle => d
    | Addressing =>
        let hit := Z.shiftr (twdr d) 1 =? own_address sl in
        if Z.testbit (twdr d) 0
        then next (if hit then SlaR_Ack else SlaR_Nack) (twdr d)
                  (Receive hit) (pointer d) (busy d)
        else next (if hit then SlaW_Ack else SlaW_Nack) (twdr d)
                  (Transmit hit) (pointer d) (busy d)
    | Transmit true =>
        next DataSent_Ack (twdr d) (Transmit true) (twdr d) (busy d)
    | Transmit false =>
        next DataSent_Nack (twdr d) (Transmit false) (pointer d) (busy d)
    | Receive true =>
        next (if twea d then DataReceived_Ack else DataReceived_Nack)
             (u8 (registers sl (pointer d))) (Receive (twea d))
             (pointer d + 1) (busy d)
    | Receive false =>
        next (if twea d then DataReceived_Ack else DataReceived_Nack)
             255 (Receive false) (pointer d) (busy d)
    end.

Definition sim_store (sl : slave) (latency : nat) (r : reg) (v : Z) (d : twi)
  : twi :=
  match r with
  | TWBR =>
      {| twbr := v; twps0 := twps0 d; twps1 := twps1 d; twsr := twsr d;
         twen := twen d; twea := twea d; twint := twint d; busy := busy d;
         twdr := twdr d; bus := bus d; pointer := pointer d |}
  | TWSR =>
      {| twbr := twbr d; twps0 := Z.testbit v 0; twps1 := Z.testbit v 1;
         twsr := twsr d; twen := twen d; twea := twea d; twint := twint d;
         busy := busy d; twdr := twdr d; bus := bus d; pointer := pointer d |}
  | TWDR =>
      {| twbr := twbr d; twps0 := twps0 d; twps1 := twps1 d; twsr := twsr d;
         twen := twen d; twea := twea d; twint := twint d; busy := busy d;
         twdr := v; bus := bus d; pointer := pointer d |}
  | TWCR =>
      if Z.testbit v 7 && Z.testbit v 2 then execute sl latency v d
      else
        {| twbr := twbr d; twps0 := twps0 d; twps1 := twps1 d;
           twsr := twsr d; twen := Z.testbit v 2; twea := Z.testbit v 6;
           twint := twint d && negb (Z.testbit v 7); busy := busy d;
           twdr := twdr d; bus := bus d; pointer := pointer d |}
  end.

(** TWCR as the code reads it. *)
Definition twcr_value (d : twi) : Z :=
  Z.lor (Z.shiftl (Z.b2z (twint d)) 7)
    (Z.lor (Z.shiftl (Z.b2z (twea d)) 6) (Z.shiftl (Z.b2z (twen d)) 2)).

(** One read of TWCR lets the command in progress advance. *)
Definition tick (d : twi) : twi :=
  let upd (flag : bool) (job : option nat) :=
    {| twbr := twbr d; twps0 := twps0 d; twps1 := twps1 d; twsr := twsr d;
       twen := twen d; twea := twea d; twint := flag; busy := job;
       twdr := twdr d; bus := bus d; pointer := pointer d |} in
  match busy d with
  | None => d
  | Some O => upd true None
  | Some (S n) => upd (twint d) (Some n)
  end.

(** The command in progress is over: TWINT is raised. *)
Definition settle (d : twi) : twi :=
  {| twbr := twbr d; twps0 := twps0 d; twps1 := twps1 d; twsr := twsr d;
     twen := twen d; twea := twea d; twint := true; busy := None;
     twdr := twdr d; bus := bus d; pointer := pointer d |}.

Definition sim_load (r : reg) (d : twi) : Z * twi :=
  match r with
  | TWBR => (twbr d, d)
  | TWSR =>
      (Z.lor (status_code (twsr d))
         (Z.lor (Z.shiftl (Z.b2z (twps1 d)) 1) (Z.b2z (twps0 d))), d)
  | TWDR => (twdr d, d)
  | TWCR => let d' := tick d in (twcr_value d', d')
  end.

Definition peripheral (sl : slave) (latency : nat) : Peripheral :=
  {| Dev := twi; dev_store := sim_store sl latency; dev_load := sim_load |}.

Definition config (d : twi) : twi_config :=
  {| ps0 := twps0 d; ps1 := twps1 d; rate := twbr d; enabled := twen d |}.

(** The slave of the round-trip scenario: address 0x50, register 0x10
    holds 0xAA and the next one 0xBB. *)
Definition sensor : slave :=
  {| own_address := 80;
     registers := fun r => if r =? 16 then 170 else if r =? 17 then 187 else 0 |}.

(** RAM with the bytes [l] at [p] and zero elsewhere. *)
Definition ram_with (p : Z) (l : list Z) : Z -> Z :=
  fun q => if (p <=? q) && (q <? p + Z.of_nat (length l))
           then nth (Z.to_nat (q - p)) l 0 else 0.

Definition boot (sl : slave) (latency : nat) (m : Z -> Z)
  : @machine (peripheral sl latency) :=
  @Build_machine (peripheral sl latency) power_on m.

End Sim.

(** ** Notions for the further properties *)

(** The configuration with the module enabled. *)
Definition with_enabled (c : twi_config) : twi_config :=
  {| ps0 := ps0 c; ps1 := ps1 c; rate := rate c; enabled := true |}.

(** An access that leaves the configuration in place: not a store to TWSR
    or to TWBR, and a store to TWCR only with TWEN written as 1. *)
Definition keeps_config {B : TwiBits} (e : access) : Prop :=
  match e with
  | Store TWCR v => Z.testbit v TWEN = true
  | Store TWSR _ | Store TWBR _ => False
  | _ => True
  end.

(** A peripheral that never shows TWINT as 1 in TWCR. *)
Definition flag_never_raised {B : TwiBits} {P : Peripheral} : Prop :=
  forall d, Z.testbit (u8 (fst (dev_load TWCR d))) TWINT = false.

(** No peripheral behind the registers: stores are lost, loads read 0. *)
Definition unplugged : Peripheral :=
  {| Dev := unit; dev_store := fun _ _ d => d; dev_load := fun _ d => (0, d) |}.

(** Two machines with the same peripheral state and the same memory on the
    addresses [R]. *)
Definition agree_on {P : Peripheral} (R : Z -> Prop) (s1 s2 : machine) : Prop :=
  dev s1 = dev s2 /\ forall q, R q -> ram s1 q = ram s2 q.

(** Two runs that both hang, or return the same value and the same
    accesses and leave machines that agree on [R]. *)
Definition same_run {P : Peripheral} {A : Type} (R : Z -> Prop)
    (r1 r2 : option (A * machine * list access)) : Prop :=
  match r1, r2 with
  | None, None => True
  | Some (a1, s1, t1), Some (a2, s2, t2) =>
      a1 = a2 /\ t1 = t2 /\ agree_on R s1 s2
  | _, _ => False
  end.

(** The store that commands a STOP. *)
Definition stop_store {B : TwiBits} : access :=
  Store TWCR (u8 (Z.lor (Z.lor (bit TWINT) (bit TWEN)) (bit TWSTO))).

(** The record of a polling loop that was left: reads of TWCR that show
    TWINT clear, then one that shows it set. *)
Definition waited {B : TwiBits} (w : list access) : Prop :=
  exists vs v,
    w = map (Load TWCR) vs ++ [Load TWCR v]
    /\ Forall (fun x => Z.testbit x TWINT = false) vs
    /\ Z.testbit v TWINT = true.

(** * Proofs *)

(** ** Bits and bytes *)

Lemma u8_range (x : Z) : 0 <= u8 x < 256.
Proof. unfold u8. apply Z.mod_pos_bound. lia. Qed.

Lemma u8_small (x : Z) : 0 <= x < 256 -> u8 x = x.
Proof. intros H. unfold u8. apply Z.mod_small. exact H. Qed.

Lemma u8_idem (x : Z) : u8 (u8 x) = u8 x.
Proof. apply u8_small, u8_range. Qed.

Lemma u8_testbit (x i : Z) : 0 <= i < 8 -> Z.testbit (u8 x) i = Z.testbit x i.
Proof.
  intros H. unfold u8. change 256 with (2 ^ 8).
  apply Z.mod_pow2_bits_low. lia.
Qed.

Lemma bit_testbit (i j : Z) :
  0 <= i -> 0 <= j -> Z.testbit (bit i) j = (i =? j).
Proof.
  intros Hi Hj. unfold bit. rewrite Z.shiftl_1_l.
  apply Z.pow2_bits_eqb. exact Hi.
Qed.

Lemma b2z_shift (b : bool) (i : Z) :
  Z.shiftl (Z.b2z b) i = if b then bit i else 0.
Proof. destruct b; [reflexivity | apply Z.shiftl_0_l]. Qed.

(** Every [x] of a byte satisfies a property checked on the 256 values. *)
Lemma byte_cases (f : Z -> bool) :
  forallb f (map Z.of_nat (seq 0 256)) = true ->
  forall x, 0 <= x < 256 -> f x = true.
Proof.
  intros H x Hx. rewrite forallb_forall in H. apply H.
  apply in_map_iff. exists (Z.to_nat x). split; [lia |].
  apply in_seq. lia.
Qed.

(** The byte put on the bus for an address argument and a direction. *)
Lemma wire_address (a dir : Z) :
  0 <= dir < 2 ->
  u8 (Z.lor (Z.shiftl (u8 a) 1) dir) = Z.lor ((a * 2) mod 256) dir.
Proof.
  intros Hd.
  assert (E : (a * 2) mod 256 = (u8 a * 2) mod 256).
  { unfold u8. rewrite Z.mul_mod_idemp_l by lia. reflexivity. }
  rewrite E. generalize (u8_range a). generalize (u8 a). intros x Hx.
  assert (Hc : dir = 0 \/ dir = 1) by lia.
  destruct Hc; subst dir.
  - apply Z.eqb_eq.
    apply (byte_cases
             (fun x => u8 (Z.lor (Z.shiftl x 1) 0) =? Z.lor ((x * 2) mod 256) 0));
      [vm_compute; reflexivity | exact Hx].
  - apply Z.eqb_eq.
    apply (byte_cases
             (fun x => u8 (Z.lor (Z.shiftl x 1) 1) =? Z.lor ((x * 2) mod 256) 1));
      [vm_compute; reflexivity | exact Hx].
Qed.

Lemma wire_address_7bit (a dir : Z) :
  0 <= a < 128 -> 0 <= dir < 2 ->
  u8 (Z.lor (Z.shiftl (u8 a) 1) dir) = address_byte a dir.
Proof.
  intros Ha Hd. rewrite wire_address by exact Hd. unfold address_byte.
  rewrite Z.shiftl_mul_pow2 by lia. change (2 ^ 1) with 2.
  rewrite Z.mod_small by lia. reflexivity.
Qed.

Lemma wire_address_mod128 (a dir : Z) :
  0 <= dir < 2 ->
  u8 (Z.lor (Z.shiftl (u8 a) 1) dir) =
  u8 (Z.lor (Z.shiftl (u8 (a mod 128)) 1) dir).
Proof.
  intros Hd. rewrite !wire_address by exact Hd. f_equal.
  replace (a mod 128 * 2) with (2 * (a mod 128)) by lia.
  replace (a * 2) with (2 * a) by lia.
  rewrite <- (Zmult_mod_distr_l a 128 2).
  change (2 * 128) with 256. rewrite Z.mod_mod by lia. reflexivity.
Qed.

(** ** Layouts *)

Section Layout.

Context {B : TwiBits}.

Lemma twcr_layout_facts :
  twcr_layout_ok B = true ->
  (0 <= TWINT < 8 /\ 0 <= TWEA < 8 /\ 0 <= TWSTA < 8 /\ 0 <= TWSTO < 8
   /\ 0 <= TWEN < 8)
  /\ TWINT <> TWEA /\ TWINT <> TWSTA /\ TWINT <> TWSTO /\ TWINT <> TWEN
  /\ TWEA <> TWSTA /\ TWEA <> TWSTO /\ TWEA <> TWEN
  /\ TWSTA <> TWSTO /\ TWSTA <> TWEN /\ TWSTO <> TWEN.
Proof.
  unfold twcr_layout_ok. cbn [forallb].
  rewrite !andb_true_iff, !negb_true_iff, !Z.eqb_neq.
  rewrite !Z.leb_le, !Z.ltb_lt. intuition lia.
Qed.

Lemma twsr_layout_facts :
  twsr_layout_ok B = true ->
  0 <= TWPS0 < 8 /\ 0 <= TWPS1 < 8 /\ TWPS0 <> TWPS1.
Proof.
  unfold twsr_layout_ok.
  rewrite !andb_true_iff, !negb_true_iff, !Z.eqb_neq.
  rewrite !Z.leb_le, !Z.ltb_lt. intuition lia.
Qed.

(** The bits of the four command bytes the driver writes to TWCR. *)
Lemma command_bits (x i : Z) (ack : bool) :
  twcr_layout_ok B = true ->
  In i [TWINT; TWEA; TWSTA; TWSTO; TWEN] ->
  In x [TWSTA; TWSTO; TWEA; TWEN] ->
  Z.testbit
    (u8 (Z.lor (Z.lor (bit TWINT) (if ack then bit x else 0)) (bit TWEN))) i
  = (i =? TWINT) || (ack && (i =? x)) || (i =? TWEN).
Proof.
  intros H Hi Hx. apply twcr_layout_facts in H.
  assert (0 <= i < 8 /\ 0 <= x < 8) as [Ri Rx].
  { cbn [In] in Hi, Hx. intuition (subst; lia). }
  rewrite u8_testbit by exact Ri. rewrite !Z.lor_spec.
  rewrite !bit_testbit by lia. rewrite (Z.eqb_sym TWINT), (Z.eqb_sym TWEN).
  destruct ack.
  - rewrite bit_testbit by lia. rewrite (Z.eqb_sym x). reflexivity.
  - rewrite Z.testbit_0_l. reflexivity.
Qed.

End Layout.

(** ** Records of accesses *)

Section Traces.

Context {B : TwiBits}.

Lemma decode_app (p : option Z) (t1 t2 : list access) :
  decode p (t1 ++ t2) = decode p t1 ++ decode (pending_after p t1) t2.
Proof.
  revert p. induction t1 as [| e t1 IH]; intros p; [reflexivity |].
  destruct e as [r v | r v]; [destruct r |]; cbn [app decode pending_after];
    try apply IH.
  destruct (Z.testbit v TWINT && Z.testbit v TWEN);
    [cbn [app]; f_equal |]; apply IH.
Qed.

Lemma pending_after_app (p : option Z) (t1 t2 : list access) :
  pending_after p (t1 ++ t2) = pending_after (pending_after p t1) t2.
Proof.
  revert p. induction t1 as [| e t1 IH]; intros p; [reflexivity |].
  destruct e as [r v | r v]; [destruct r |]; cbn [app pending_after];
    try apply IH.
  destruct (Z.testbit v TWINT && Z.testbit v TWEN); apply IH.
Qed.

Lemma twdr_loads_app (t1 t2 : list access) :
  twdr_loads (t1 ++ t2) = twdr_loads t1 ++ twdr_loads t2.
Proof.
  induction t1 as [| e t1 IH]; [reflexivity |].
  destruct e as [r v | r v]; destruct r; cbn [app twdr_loads];
    rewrite IH; reflexivity.
Qed.

Lemma touches_status_app (t1 t2 : list access) :
  touches_status (t1 ++ t2) = touches_status t1 || touches_status t2.
Proof. apply existsb_app. Qed.

Lemma amounts_to_nil : amounts_to [] [] [].
Proof. repeat split. Qed.

Lemma amounts_to_app t1 t2 ops1 ops2 rx1 rx2 :
  amounts_to t1 ops1 rx1 -> amounts_to t2 ops2 rx2 ->
  amounts_to (t1 ++ t2) (ops1 ++ ops2) (rx1 ++ rx2).
Proof.
  intros (O1 & N1 & R1 & S1) (O2 & N2 & R2 & S2). unfold amounts_to, bus_ops.
  rewrite decode_app, pending_after_app, twdr_loads_app, touches_status_app.
  rewrite N1, S1, S2. unfold bus_ops in O1, O2. rewrite O1, O2, R1, R2.
  repeat split; assumption.
Qed.

(** Reads of TWCR alone are no bus operation. *)
Lemma polls_silent (t : list access) (p : option Z) :
  polls t ->
  decode p t = [] /\ pending_after p t = p /\ twdr_loads t = []
  /\ touches_status t = false.
Proof.
  induction 1 as [| e t [v ->] _ IH]; [repeat split |].
  exact IH.
Qed.

(** A command byte followed by polling: one bus operation. *)
Lemma command_then_polls (v : Z) (w : list access) (o : bus_op) :
  Z.testbit v TWINT && Z.testbit v TWEN = true ->
  command None v = o -> polls w ->
  amounts_to (Store TWCR v :: w) [o] [].
Proof.
  intros Hv Ho Hw. destruct (polls_silent w None Hw) as (D & N & R & S).
  unfold amounts_to, bus_ops. cbn [decode pending_after twdr_loads].
  rewrite Hv, D, N, R, Ho. repeat split. exact S.
Qed.

End Traces.

(** ** The primitives *)

Section Primitives.

Context {B : TwiBits} {P : Peripheral}.
Variable fuel : nat.
Hypothesis layout : twcr_layout_ok B = true.

Lemma bind_Some {A C : Type} (m : M A) (f : A -> M C) s c s2 t :
  bind m f s = Some (c, s2, t) ->
  exists a s1 t1 t2,
    m s = Some (a, s1, t1) /\ f a s1 = Some (c, s2, t2) /\ t = t1 ++ t2.
Proof.
  unfold bind. destruct (m s) as [[[a s1] t1] |]; [| discriminate].
  destruct (f a s1) as [[[c' s2'] t2] |] eqn:Ef; [| discriminate].
  intros E. inversion E; subst. exists a, s1, t1, t2. repeat split.
  exact Ef.
Qed.

Lemma bind_returns {A C : Type} (m : M A) (f : A -> M C) s :
  m s <> None ->
  (forall a s1 t1, m s = Some (a, s1, t1) -> f a s1 <> None) ->
  bind m f s <> None.
Proof.
  unfold bind. intros Hm Hf. destruct (m s) as [[[a s1] t1] |]; [| congruence].
  specialize (Hf a s1 t1 eq_refl).
  destruct (f a s1) as [[[c s2] t2] |]; congruence.
Qed.

Lemma bitWaitHigh_spec (n : nat) (b : Z) s x s' t :
  bitWaitHigh n TWCR b s = Some (x, s', t) -> ram s' = ram s /\ polls t.
Proof.
  revert s t. induction n as [| n IH]; intros s t; cbn [bitWaitHigh];
    [discriminate |].
  intros H. apply bind_Some in H. destruct H as (v & s1 & t1 & t2 & L & K & ->).
  unfold load in L. destruct (dev_load TWCR (dev s)) as [v0 d].
  injection L as <- <- <-.
  assert (Hp : polls [Load TWCR (u8 v0)]).
  { constructor; [eexists; reflexivity | constructor]. }
  destruct (Z.testbit (u8 v0) b).
  - injection K as _ <- <-. split; [reflexivity |].
    rewrite app_nil_r. exact Hp.
  - apply IH in K. destruct K as [K1 K2]. split; [exact K1 |].
    apply Forall_app. split; assumption.
Qed.

(** The command bytes, as the peripheral decodes them. *)
Lemma command_of (x : Z) (ack : bool) :
  In x [TWSTA; TWSTO; TWEA] ->
  let v := u8 (Z.lor (Z.lor (bit TWINT) (if ack then bit x else 0)) (bit TWEN)) in
  Z.testbit v TWINT && Z.testbit v TWEN = true
  /\ Z.testbit v TWSTA = ack && (TWSTA =? x)
  /\ Z.testbit v TWSTO = ack && (TWSTO =? x)
  /\ Z.testbit v TWEA = ack && (TWEA =? x).
Proof.
  intros Hx v. subst v. pose proof (twcr_layout_facts layout) as F.
  assert (Hx' : In x [TWSTA; TWSTO; TWEA; TWEN]).
  { cbn [In] in *. intuition idtac. }
  rewrite !(command_bits _ _ _ layout) by (cbn [In]; auto 10).
  rewrite !Z.eqb_refl, orb_true_r. cbn [orb andb].
  replace (TWSTA =? TWINT) with false by (symmetry; apply Z.eqb_neq; lia).
  replace (TWSTA =? TWEN) with false by (symmetry; apply Z.eqb_neq; lia).
  replace (TWSTO =? TWINT) with false by (symmetry; apply Z.eqb_neq; lia).
  replace (TWSTO =? TWEN) with false by (symmetry; apply Z.eqb_neq; lia).
  replace (TWEA =? TWINT) with false by (symmetry; apply Z.eqb_neq; lia).
  replace (TWEA =? TWEN) with false by (symmetry; apply Z.eqb_neq; lia).
  rewrite !orb_false_r. cbn [orb]. auto.
Qed.

Lemma start_command :
  let v := u8 (Z.lor (Z.lor (bit TWINT) (bit TWEN)) (bit TWSTA)) in
  Z.testbit v TWINT && Z.testbit v TWEN = true
  /\ Z.testbit v TWSTO = false /\ forall p, command p v = Start.
Proof.
  intros v. subst v. pose proof (twcr_layout_facts layout) as F.
  rewrite <- Z.lor_assoc, (Z.lor_comm (bit TWEN)), Z.lor_assoc.
  destruct (command_of TWSTA true) as (E & A & O & _); [cbn [In]; auto |].
  cbn [andb] in A, O. split; [exact E |]. split.
  - rewrite O. apply Z.eqb_neq. lia.
  - intros p. unfold command. rewrite A, Z.eqb_refl. reflexivity.
Qed.

Lemma stop_command :
  let v := u8 (Z.lor (Z.lor (bit TWINT) (bit TWEN)) (bit TWSTO)) in
  Z.testbit v TWINT && Z.testbit v TWEN = true
  /\ forall p, command p v = Stop.
Proof.
  intros v. subst v. pose proof (twcr_layout_facts layout) as F.
  rewrite <- Z.lor_assoc, (Z.lor_comm (bit TWEN)), Z.lor_assoc.
  destruct (command_of TWSTO true) as (E & A & O & _); [cbn [In]; auto |].
  cbn [andb] in A, O. split; [exact E |].
  intros p. unfold command. rewrite A, O, Z.eqb_refl.
  replace (TWSTA =? TWSTO) with false by (symmetry; apply Z.eqb_neq; lia).
  reflexivity.
Qed.

Lemma write_command :
  let v := u8 (Z.lor (bit TWINT) (bit TWEN)) in
  Z.testbit v TWINT && Z.testbit v TWEN = true
  /\ Z.testbit v TWSTO = false
  /\ forall b, command (Some b) v = WriteByte b.
Proof.
  intros v. subst v.
  destruct (command_of TWSTA false) as (E & A & O & _); [cbn [In]; auto |].
  rewrite Z.lor_0_r in E, A, O. cbn [andb] in A, O.
  split; [exact E |]. split; [exact O |].
  intros b. unfold command. rewrite A, O. reflexivity.
Qed.

Lemma read_command (ack : bool) :
  let v := u8 (Z.lor (Z.lor (bit TWINT) (Z.shiftl (Z.b2z ack) TWEA))
                     (bit TWEN)) in
  Z.testbit v TWINT && Z.testbit v TWEN = true
  /\ Z.testbit v TWSTO = false
  /\ command None v = ReadByte ack.
Proof.
  intros v. subst v. pose proof (twcr_layout_facts layout) as F.
  rewrite b2z_shift.
  destruct (command_of TWEA ack) as (E & A & O & K); [cbn [In]; auto |].
  replace (TWSTA =? TWEA) with false in A by (symmetry; apply Z.eqb_neq; lia).
  replace (TWSTO =? TWEA) with false in O by (symmetry; apply Z.eqb_neq; lia).
  rewrite Z.eqb_refl in K. rewrite andb_false_r in A, O.
  rewrite andb_true_r in K.
  split; [exact E |]. split; [exact O |].
  unfold command. rewrite A, O, K. reflexivity.
Qed.

End Primitives.

(** Take a run of binds apart, step by step. *)
Ltac split_run H :=
  repeat (apply bind_Some in H;
          let a := fresh "a" in
          let s := fresh "s" in
          let t1 := fresh "t" in
          let t2 := fresh "t" in
          let E := fresh "E" in
          destruct H as (a & s & t1 & t2 & E & H & ->)).

Section PrimitiveRuns.

Context {B : TwiBits} {P : Peripheral}.
Variable fuel : nat.
Hypothesis layout : twcr_layout_ok B = true.

Lemma i2c_Start_spec s x s' t :
  i2c_Start fuel s = Some (x, s', t) ->
  ram s' = ram s /\ amounts_to t [Start] [].
Proof.
  unfold i2c_Start. intros H.
  apply bind_Some in H. destruct H as (u & s1 & t1 & t2 & S1 & W & ->).
  unfold store in S1. injection S1 as _ <- <-.
  apply bitWaitHigh_spec in W. destruct W as [Hr Hp]. split; [exact Hr |].
  destruct (start_command layout) as (E & _ & C).
  apply command_then_polls; auto.
Qed.

Lemma i2c_Stop_spec s x s' t :
  i2c_Stop s = Some (x, s', t) ->
  ram s' = ram s /\ amounts_to t [Stop] [].
Proof.
  unfold i2c_Stop, store. intros H. injection H as _ <- <-.
  split; [reflexivity |].
  destruct (stop_command layout) as (E & C).
  apply command_then_polls; auto. constructor.
Qed.

Lemma i2c_Stop_returns s : i2c_Stop s <> None.
Proof. unfold i2c_Stop, store. discriminate. Qed.

Lemma i2c_Write_spec b s x s' t :
  i2c_Write fuel b s = Some (x, s', t) ->
  ram s' = ram s /\ amounts_to t [WriteByte (u8 b)] [].
Proof.
  unfold i2c_Write. intros H.
  apply bind_Some in H. destruct H as (u & s1 & t1 & t2 & S1 & H & ->).
  apply bind_Some in H. destruct H as (u' & s2 & t3 & t4 & S2 & W & ->).
  unfold store in S1, S2. injection S1 as _ <- <-. injection S2 as _ <- <-.
  apply bitWaitHigh_spec in W. destruct W as [Hr Hp]. split; [exact Hr |].
  destruct write_command as (E & _ & C); [exact layout |].
  destruct (polls_silent t4 None Hp) as (D & N & R & S).
  unfold amounts_to, bus_ops.
  cbn [app decode pending_after twdr_loads touches_status existsb access_reg
       reg_eqb orb].
  rewrite E, D, N, R, C, u8_idem. repeat split. exact S.
Qed.

Lemma i2c_Read_spec ack s v s' t :
  i2c_Read fuel ack s = Some (v, s', t) ->
  ram s' = ram s /\ amounts_to t [ReadByte ack] [v] /\ u8 v = v.
Proof.
  unfold i2c_Read. intros H.
  apply bind_Some in H. destruct H as (u & s1 & t1 & t2 & S1 & H & ->).
  apply bind_Some in H. destruct H as (u' & s2 & t3 & t4 & W & L & ->).
  unfold store in S1. injection S1 as _ <- <-.
  apply bitWaitHigh_spec in W. destruct W as [Hr Hp].
  unfold load in L. destruct (dev_load TWDR (dev s2)) as [v0 d].
  injection L as <- <- <-. split; [exact Hr |]. split; [| apply u8_idem].
  destruct (read_command layout ack) as (E & _ & C).
  change ([Store TWCR (u8 (Z.lor (Z.lor (bit TWINT) (Z.shiftl (Z.b2z ack) TWEA))
                                (bit TWEN)))] ++ t3 ++ [Load TWDR (u8 v0)])
    with ((Store TWCR (u8 (Z.lor (Z.lor (bit TWINT)
                                        (Z.shiftl (Z.b2z ack) TWEA))
                                 (bit TWEN))) :: t3) ++ [Load TWDR (u8 v0)]).
  apply (amounts_to_app _ _ [ReadByte ack] [] [] [u8 v0]).
  - apply command_then_polls; auto.
  - repeat split.
Qed.

(** With a responsive peripheral every polling loop of the driver is left. *)
Section Returns.

Hypothesis alive : responsive fuel.

Lemma command_returns (v : Z) s :
  Z.testbit (u8 v) TWINT && Z.testbit (u8 v) TWEN = true ->
  Z.testbit (u8 v) TWSTO = false ->
  bind (store TWCR v) (fun _ => bitWaitHigh fuel TWCR TWINT) s <> None.
Proof.
  intros E O. apply andb_true_iff in E. destruct E as [E1 E2].
  apply bind_returns; [unfold store; discriminate |].
  intros u s1 t1 S1. unfold store in S1. injection S1 as _ <- _.
  apply alive; assumption.
Qed.

Lemma i2c_Start_returns s : i2c_Start fuel s <> None.
Proof.
  destruct (start_command layout) as (E & O & _).
  unfold i2c_Start. apply command_returns; assumption.
Qed.

Lemma i2c_Write_returns b s : i2c_Write fuel b s <> None.
Proof.
  destruct (write_command layout) as (E & O & _).
  unfold i2c_Write. apply bind_returns; [unfold store; discriminate |].
  intros u s1 t1 _. apply command_returns; assumption.
Qed.

Lemma i2c_Read_returns ack s : i2c_Read fuel ack s <> None.
Proof.
  destruct (read_command layout ack) as (E & O & _).
  unfold i2c_Read.
  pose proof (command_returns
    (Z.lor (Z.lor (bit TWINT) (Z.shiftl (Z.b2z ack) TWEA)) (bit TWEN)) s E O)
    as H.
  unfold bind in *.
  destruct (store TWCR _ s) as [[[u s1] t1] |]; [| congruence].
  destruct (bitWaitHigh fuel TWCR TWINT s1) as [[[u' s2] t2] |]; [| congruence].
  unfold load. destruct (dev_load TWDR (dev s2)). discriminate.
Qed.

End Returns.

End PrimitiveRuns.

(** ** The loops and the transactions *)

Lemma ack_pattern_step (n : nat) :
  ack_pattern (S n) =
  to_bool (if Nat.eqb (S n) 1 then __i2c_nackCmd else __i2c_ackCmd)
  :: ack_pattern n.
Proof. destruct n; reflexivity. Qed.

Lemma bytes_at_bytes (m : Z -> Z) (p : Z) (n : nat) :
  Forall (fun b => 0 <= b < 256) (buffer m p n) ->
  bytes_at m p n = buffer m p n.
Proof.
  unfold bytes_at. induction 1 as [| b l Hb _ IH]; [reflexivity |].
  cbn [map]. rewrite IH, (u8_small b Hb). reflexivity.
Qed.

Section Transactions.

Context {B : TwiBits} {P : Peripheral}.
Variable fuel : nat.
Hypothesis layout : twcr_layout_ok B = true.

Lemma amounts_to_eq t ops ops' rx rx' :
  amounts_to t ops' rx' -> ops = ops' -> rx = rx' -> amounts_to t ops rx.
Proof. intros H -> ->. exact H. Qed.

Ltac use_specs :=
  repeat match goal with
    | E : i2c_Start _ _ = Some _ |- _ =>
        apply (i2c_Start_spec fuel layout) in E; destruct E as [? ?]
    | E : i2c_Stop _ = Some _ |- _ =>
        apply (i2c_Stop_spec layout) in E; destruct E as [? ?]
    | E : i2c_Write _ _ _ = Some _ |- _ =>
        apply (i2c_Write_spec fuel layout) in E; destruct E as [? ?]
    | E : i2c_Read _ _ _ = Some _ |- _ =>
        apply (i2c_Read_spec fuel layout) in E; destruct E as (? & ? & ?)
    end.

(** Glue the records of the steps of a run together. *)
Ltac compose :=
  lazymatch goal with
  | |- amounts_to (_ ++ _) _ _ =>
      eapply amounts_to_app; [eassumption | compose]
  | |- amounts_to _ _ _ => eassumption
  end.

Ltac glue :=
  cbn [app]; eapply amounts_to_eq;
  [compose
  | cbn [app map]; rewrite <- ?app_assoc; reflexivity
  | cbn [app]; rewrite ?app_nil_r; reflexivity].

Lemma write_loop_spec (n : nat) (p : Z) s x s' t :
  write_loop fuel n p s = Some (x, s', t) ->
  ram s' = ram s
  /\ amounts_to t (map WriteByte (bytes_at (ram s) p n)) [].
Proof.
  revert p s t. induction n as [| n IH]; intros p s t H; cbn [write_loop] in H.
  - unfold ret in H. injection H as _ <- <-. split; [reflexivity |].
    apply amounts_to_nil.
  - split_run H. unfold peek in E. injection E as <- <- <-.
    use_specs. apply IH in H. destruct H as [Hr Ha].
    split; [congruence |].
    replace (ram s1) with (ram s) in Ha by congruence.
    rewrite u8_idem in *. unfold bytes_at in *. cbn [buffer map]. glue.
Qed.

Lemma read_loop_spec (n : nat) (p : Z) s x s' t :
  read_loop fuel n p s = Some (x, s', t) ->
  amounts_to t (map ReadByte (ack_pattern n)) (buffer (ram s') p n)
  /\ forall q, ~ (p <= q < p + Z.of_nat n) -> ram s' q = ram s q.
Proof.
  revert p s t. induction n as [| n IH]; intros p s t H.
  - cbn [read_loop] in H. unfold ret in H. injection H as _ <- <-.
    split; [apply amounts_to_nil | reflexivity].
  - cbn [read_loop] in H. split_run H.
    unfold poke in E0. injection E0 as _ <- <-.
    use_specs. apply IH in H. cbn [ram] in H. destruct H as [Ha Hf].
    assert (Hp : ram s' p = a).
    { rewrite Hf by lia. rewrite Z.eqb_refl. assumption. }
    split.
    + rewrite ack_pattern_step. cbn [buffer map]. rewrite Hp. glue.
    + intros q Hq. rewrite Hf by lia.
      replace (q =? p) with false by (symmetry; apply Z.eqb_neq; lia).
      congruence.
Qed.

(** The whole of a burst write. *)
Lemma writeAddress_spec (a p n : Z) s x s' t :
  i2c_writeAddress fuel a p n s = Some (x, s', t) ->
  ram s' = ram s
  /\ amounts_to t
       ([Start; WriteByte (u8 (Z.lor (Z.shiftl (u8 a) 1) 0))]
        ++ map WriteByte (bytes_at (ram s) p (iterations n)) ++ [Stop]) [].
Proof.
  unfold i2c_writeAddress, __i2c_WriteCmd. intros H. split_run H.
  apply write_loop_spec in E1. destruct E1 as [Hr Hl].
  use_specs. split; [congruence |].
  replace (ram s1) with (ram s) in Hl by congruence. glue.
Qed.

(** The whole of a burst read. *)
Lemma readAdress_spec (a p n : Z) s x s' t :
  i2c_readAdress fuel a p n s = Some (x, s', t) ->
  amounts_to t
    ([Start; WriteByte (u8 (Z.lor (Z.shiftl (u8 a) 1) 1))]
     ++ map ReadByte (ack_pattern (iterations n)) ++ [Stop])
    (buffer (ram s') p (iterations n))
  /\ forall q, ~ (p <= q < p + Z.of_nat (iterations n)) -> ram s' q = ram s q.
Proof.
  unfold i2c_readAdress, __i2c_ReadCmd. intros H. split_run H.
  apply read_loop_spec in E1. destruct E1 as [Hl Hf].
  use_specs. split.
  - replace (ram s2) with (ram s') in Hl by congruence. glue.
  - intros q Hq. replace (ram s') with (ram s2) by congruence.
    rewrite (Hf q Hq). congruence.
Qed.

(** The whole of a write followed by a read. *)
Lemma readSequential_spec (a ptx ntx prx nrx : Z) s x s' t :
  i2c_readSequential fuel a ptx ntx prx nrx s = Some (x, s', t) ->
  amounts_to t
    (([Start; WriteByte (u8 (Z.lor (Z.shiftl (u8 a) 1) 0))]
      ++ map WriteByte (bytes_at (ram s) ptx (iterations ntx)))
     ++ ([Start; WriteByte (u8 (Z.lor (Z.shiftl (u8 a) 1) 1))]
         ++ map ReadByte (ack_pattern (iterations nrx)))
     ++ [Stop])
    (buffer (ram s') prx (iterations nrx))
  /\ forall q, ~ (prx <= q < prx + Z.of_nat (iterations nrx)) ->
               ram s' q = ram s q.
Proof.
  unfold i2c_readSequential, __i2c_WriteCmd, __i2c_ReadCmd.
  intros H. split_run H.
  apply write_loop_spec in E1. destruct E1 as [Hw Hlw].
  apply read_loop_spec in E4. destruct E4 as [Hl Hf].
  use_specs. split.
  - replace (ram s5) with (ram s') in Hl by congruence.
    replace (ram s1) with (ram s) in Hlw by congruence. glue.
  - intros q Hq. replace (ram s') with (ram s5) by congruence.
    rewrite (Hf q Hq). congruence.
Qed.

End Transactions.

Section TransactionsReturn.

Context {B : TwiBits} {P : Peripheral}.
Variable fuel : nat.
Hypothesis layout : twcr_layout_ok B = true.
Hypothesis alive : responsive fuel.

Lemma write_loop_returns (n : nat) (p : Z) s : write_loop fuel n p s <> None.
Proof.
  revert p s. induction n as [| n IH]; intros p s; cbn [write_loop].
  - discriminate.
  - apply bind_returns; [discriminate |]. intros v s1 t1 _.
    apply bind_returns; [apply i2c_Write_returns; assumption |].
    intros. apply IH.
Qed.

Lemma read_loop_returns (n : nat) (p : Z) s : read_loop fuel n p s <> None.
Proof.
  revert p s. induction n as [| n IH]; intros p s; cbn [read_loop].
  - discriminate.
  - apply bind_returns; [apply i2c_Read_returns; assumption |].
    intros v s1 t1 _. apply bind_returns; [discriminate |].
    intros. apply IH.
Qed.

Ltac returns :=
  repeat first
    [ apply i2c_Start_returns; assumption
    | apply i2c_Write_returns; assumption
    | apply i2c_Stop_returns
    | apply write_loop_returns
    | apply read_loop_returns
    | apply bind_returns; [| intros ? ? ? _] ].

Lemma writeAddress_returns (a p n : Z) s :
  i2c_writeAddress fuel a p n s <> None.
Proof. unfold i2c_writeAddress. returns. Qed.

Lemma readAdress_returns (a p n : Z) s :
  i2c_readAdress fuel a p n s <> None.
Proof. unfold i2c_readAdress. returns. Qed.

Lemma readSequential_returns (a ptx ntx prx nrx : Z) s :
  i2c_readSequential fuel a ptx ntx prx nrx s <> None.
Proof. unfold i2c_readSequential. returns. Qed.

End TransactionsReturn.

(** ** The simulated peripheral *)

Lemma sim_twcr_flag (d : Sim.twi) :
  Z.testbit (u8 (Sim.twcr_value d)) 7 = Sim.twint d.
Proof.
  unfold Sim.twcr_value.
  destruct (Sim.twint d), (Sim.twea d), (Sim.twen d); reflexivity.
Qed.

(** Polling the simulated peripheral ends with the command settled. *)
Lemma sim_wait_done (sl : Sim.slave) (latency : nat) (m : Z -> Z) :
  forall (n fuel : nat) (d : Sim.twi),
    Sim.busy d = Some n -> Sim.twint d = false -> (n < fuel)%nat ->
    exists t,
      @bitWaitHigh (Sim.peripheral sl latency) fuel TWCR 7
        (@Build_machine (Sim.peripheral sl latency) d m)
      = Some (tt,
              @Build_machine (Sim.peripheral sl latency) (Sim.settle d) m, t).
Proof.
  induction n as [| n IH]; intros fuel d Hb Hi Hf;
    (destruct fuel as [| fuel]; [lia |]); cbn [bitWaitHigh];
    unfold bind, load; cbn [dev dev_load ram Sim.peripheral Sim.sim_load];
    rewrite sim_twcr_flag; unfold Sim.tick; rewrite Hb; cbn [Sim.twint].
  - eexists. reflexivity.
  - rewrite Hi.
    match goal with
    | |- context [bitWaitHigh fuel TWCR 7 ?s] =>
        destruct (IH fuel (dev s) eq_refl eq_refl ltac:(lia)) as [t K]
    end.
    cbn [dev] in K. rewrite K. eexists. reflexivity.
Qed.

Lemma sim_execute_twint (sl : Sim.slave) (latency : nat) (v : Z) (d : Sim.twi) :
  Sim.twint (Sim.execute sl latency v d) = false.
Proof.
  unfold Sim.execute.
  destruct (Z.testbit v 5); [reflexivity |].
  destruct (Z.testbit v 4); [reflexivity |].
  destruct (Sim.bus d) as [| | [] | []]; cbn [Sim.bus Sim.twdr];
    try reflexivity.
  destruct (Z.testbit (Sim.twdr d) 0); reflexivity.
Qed.

Lemma sim_execute_busy (sl : Sim.slave) (latency : nat) (v : Z) (d : Sim.twi) :
  Z.testbit v 4 = false ->
  Sim.busy (Sim.execute sl latency v d) = Some latency.
Proof.
  intros H. unfold Sim.execute. rewrite H.
  destruct (Z.testbit v 5); [reflexivity |].
  destruct (Sim.bus d) as [| | [] | []]; cbn [Sim.bus Sim.twdr];
    try reflexivity.
  destruct (Z.testbit (Sim.twdr d) 0); reflexivity.
Qed.

(** The simulated peripheral answers every command within [latency] reads
    of TWCR. *)
Lemma sim_responsive (sl : Sim.slave) (latency fuel : nat) :
  (latency < fuel)%nat ->
  @responsive atmega328 (Sim.peripheral sl latency) fuel.
Proof.
  intros Hf s v H7 H2 H4. cbn [TWINT TWEN TWSTO atmega328] in *.
  cbn [dev_store Sim.peripheral Sim.sim_store]. rewrite H7, H2. cbn [andb].
  destruct (sim_wait_done sl latency (ram s) latency fuel
              (Sim.execute sl latency v (dev s))
              (sim_execute_busy sl latency v (dev s) H4)
              (sim_execute_twint sl latency v (dev s)) Hf) as [t K].
  rewrite K. discriminate.
Qed.

(** The registers of the simulated peripheral hold the configuration. *)
Lemma sim_holds_config (sl : Sim.slave) (latency : nat) :
  @holds_config atmega328 (Sim.peripheral sl latency) Sim.config.
Proof.
  split; cbn [TWPS0 TWPS1 TWEN atmega328 dev_load dev_store Sim.peripheral].
  - intros [] d; cbn [Sim.sim_load snd]; try reflexivity.
    unfold Sim.tick. destruct (Sim.busy d) as [[| n] |]; reflexivity.
  - intros d. unfold Sim.config. cbn [Sim.sim_load fst ps0].
    destruct (Sim.twsr d), (Sim.twps0 d), (Sim.twps1 d); reflexivity.
  - intros d. unfold Sim.config. cbn [Sim.sim_load fst ps1].
    destruct (Sim.twsr d), (Sim.twps0 d), (Sim.twps1 d); reflexivity.
  - reflexivity.
  - reflexivity.
  - intros v d. cbn [Sim.sim_store].
    destruct (Z.testbit v 7 && Z.testbit v 2) eqn:E; [| reflexivity].
    apply andb_true_iff in E. destruct E as [_ E2]. rewrite E2.
    unfold Sim.execute.
    destruct (Z.testbit v 5); [reflexivity |].
    destruct (Z.testbit v 4); [reflexivity |].
    destruct (Sim.bus d) as [| | [] | []]; cbn [Sim.bus Sim.twdr];
      try reflexivity.
    destruct (Z.testbit (Sim.twdr d) 0); reflexivity.
  - reflexivity.
Qed.

Lemma final_Some {P : Peripheral} {A : Type}
    (r : option (A * machine * list access)) (a : A) (s : machine) :
  final r = Some (a, s) -> exists t, r = Some (a, s, t).
Proof.
  destruct r as [[[a' s'] t] |]; [| discriminate].
  intros E. injection E as -> ->. exists t. reflexivity.
Qed.

Lemma final_bind {P : Peripheral} {A C : Type} (m : M A) (f : A -> M C)
    (s s1 : machine) (a : A) (r : option (C * machine)) :
  final (m s) = Some (a, s1) -> final (f a s1) = r -> final (bind m f s) = r.
Proof.
  unfold bind. destruct (m s) as [[[a' s'] t] |]; [| discriminate].
  intros E. injection E as -> ->. intros <-.
  destruct (f a s1) as [[[c s2] t2] |]; reflexivity.
Qed.

(** The primitives on the simulated peripheral. *)
Section SimRuns.

Variable sl : Sim.slave.
Variables latency fuel : nat.
Hypothesis in_time : (latency < fuel)%nat.

Local Abbreviation bench := (Sim.peripheral sl latency).

Lemma sim_command (v : Z) (d : Sim.twi) (m : Z -> Z) :
  Z.testbit (u8 v) 7 && Z.testbit (u8 v) 2 = true ->
  Z.testbit (u8 v) 4 = false ->
  final (bind (@store bench TWCR v) (fun _ => @bitWaitHigh bench fuel TWCR 7)
           (@Build_machine bench d m))
  = Some (tt, @Build_machine bench
                (Sim.settle (Sim.execute sl latency (u8 v) d)) m).
Proof.
  intros E O. unfold bind at 1. unfold store.
  cbn [dev ram dev_store Sim.peripheral Sim.sim_store]. rewrite E.
  destruct (sim_wait_done sl latency m latency fuel
              (Sim.execute sl latency (u8 v) d)
              (sim_execute_busy sl latency (u8 v) d O)
              (sim_execute_twint sl latency (u8 v) d) in_time) as [t K].
  rewrite K. reflexivity.
Qed.

Lemma sim_Start (d : Sim.twi) (m : Z -> Z) :
  final (@i2c_Start atmega328 bench fuel (@Build_machine bench d m))
  = Some (tt, @Build_machine bench
                (Sim.settle (Sim.execute sl latency 164 d)) m).
Proof. apply sim_command; reflexivity. Qed.

Lemma sim_Write (b : Z) (d : Sim.twi) (m : Z -> Z) :
  final (@i2c_Write atmega328 bench fuel b (@Build_machine bench d m))
  = Some (tt, @Build_machine bench
                (Sim.settle
                   (Sim.execute sl latency 132
                      (Sim.sim_store sl latency TWDR (u8 b) d))) m).
Proof.
  unfold i2c_Write. eapply final_bind.
  - unfold store. cbn [final dev ram dev_store Sim.peripheral].
    rewrite u8_idem. reflexivity.
  - apply (sim_command (Z.lor (bit 7) (bit 2))); reflexivity.
Qed.

Lemma sim_Read (ack : bool) (d : Sim.twi) (m : Z -> Z) :
  final (@i2c_Read atmega328 bench fuel ack (@Build_machine bench d m))
  = Some (u8 (Sim.twdr
                (Sim.execute sl latency (if ack then 196 else 132) d)),
          @Build_machine bench
            (Sim.settle
               (Sim.execute sl latency (if ack then 196 else 132) d)) m).
Proof.
  unfold i2c_Read. cbn [TWINT TWEN TWEA atmega328].
  pose proof (sim_command
                (Z.lor (Z.lor (bit 7) (Z.shiftl (Z.b2z ack) 6)) (bit 2)) d m)
    as K.
  replace (u8 (Z.lor (Z.lor (bit 7) (Z.shiftl (Z.b2z ack) 6)) (bit 2)))
    with (if ack then 196 else 132) in K by (destruct ack; reflexivity).
  specialize (K ltac:(destruct ack; reflexivity)
                ltac:(destruct ack; reflexivity)).
  unfold bind in *.
  destruct (store TWCR _ _) as [[[u s1] t1] |]; [| discriminate].
  destruct (bitWaitHigh fuel TWCR 7 s1) as [[[u' s2] t2] |]; [| discriminate].
  cbn [final] in K. injection K as -> ->. unfold load.
  cbn [dev ram dev_load Sim.peripheral Sim.sim_load]. reflexivity.
Qed.

End SimRuns.

(** The register read of the round-trip scenario, whatever the latency. *)
Lemma sim_round_trip_run (latency fuel : nat) (ptx prx : Z) (m : Z -> Z) :
  (latency < fuel)%nat -> u8 (m ptx) = 16 ->
  exists d,
    final (@i2c_readSequential atmega328 (Sim.peripheral Sim.sensor latency)
             fuel 80 ptx 1 prx 2 (Sim.boot Sim.sensor latency m))
    = Some (tt,
            @Build_machine (Sim.peripheral Sim.sensor latency) d
              (fun q => if q =? prx + 1 then 187
                        else if q =? prx then 170 else m q)).
Proof.
  intros Hf Hm. unfold i2c_readSequential, Sim.boot.
  change (iterations 1) with 1%nat. change (iterations 2) with 2%nat.
  cbn [write_loop read_loop Nat.eqb].
  eexists.
  repeat lazymatch goal with
    | |- final (bind _ _ _) = _ => eapply final_bind
    | |- final (i2c_Start _ _) = _ => apply sim_Start; exact Hf
    | |- final (i2c_Write _ _ _) = _ => apply sim_Write; exact Hf
    | |- final (i2c_Read _ _ _) = _ => apply sim_Read; exact Hf
    | |- final (peek _ _) = _ => unfold peek; cbn [final ram]; reflexivity
    | |- final (poke _ _ _) = _ => unfold poke; cbn [final ram dev]; reflexivity
    | |- final (ret _ _) = Some (_, _) => unfold ret; cbn [final]; reflexivity
    end.
  unfold i2c_Stop, store. cbn [final dev ram].
  rewrite !u8_idem, !Hm.
  repeat match goal with
    | |- context [u8 (Sim.twdr ?d)] =>
        let v := eval vm_compute in (u8 (Sim.twdr d)) in
        change (u8 (Sim.twdr d)) with v
    end.
  reflexivity.
Qed.

(** ** The caller's memory *)

Section Memory.

Context {B : TwiBits} {P : Peripheral}.
Variable fuel : nat.

Lemma polls_no_data (t : list access) : polls t -> twdr_loads t = [].
Proof. induction 1 as [| e t [v ->] _ IH]; [reflexivity | exact IH]. Qed.

Lemma command_ram (v : Z) s x s' t :
  bind (store TWCR v) (fun _ => bitWaitHigh fuel TWCR TWINT) s
  = Some (x, s', t) ->
  ram s' = ram s /\ twdr_loads t = [].
Proof.
  intros H. apply bind_Some in H.
  destruct H as (u & s1 & t1 & t2 & S1 & W & ->).
  unfold store in S1. injection S1 as _ <- <-.
  apply bitWaitHigh_spec in W. destruct W as [Hr Hp].
  split; [exact Hr |]. cbn [app twdr_loads]. apply polls_no_data, Hp.
Qed.

Lemma i2c_Write_ram b s x s' t :
  i2c_Write fuel b s = Some (x, s', t) ->
  ram s' = ram s /\ twdr_loads t = [].
Proof.
  unfold i2c_Write. intros H. apply bind_Some in H.
  destruct H as (u & s1 & t1 & t2 & S1 & H & ->).
  unfold store in S1. injection S1 as _ <- <-.
  apply command_ram in H. exact H.
Qed.

Lemma i2c_Read_ram ack s v s' t :
  i2c_Read fuel ack s = Some (v, s', t) ->
  ram s' = ram s /\ twdr_loads t = [v] /\ u8 v = v.
Proof.
  unfold i2c_Read. intros H.
  apply bind_Some in H. destruct H as (u & s1 & t1 & t2 & S1 & H & ->).
  apply bind_Some in H. destruct H as (u' & s2 & t3 & t4 & W & L & ->).
  unfold store in S1. injection S1 as _ <- <-.
  apply bitWaitHigh_spec in W. destruct W as [Hr Hp].
  unfold load in L. destruct (dev_load TWDR (dev s2)) as [v0 d].
  injection L as <- <- <-. split; [exact Hr |]. split; [| apply u8_idem].
  cbn [app twdr_loads]. rewrite twdr_loads_app, (polls_no_data _ Hp).
  reflexivity.
Qed.

Lemma write_loop_ram (n : nat) (p : Z) s x s' t :
  write_loop fuel n p s = Some (x, s', t) ->
  ram s' = ram s /\ twdr_loads t = [].
Proof.
  revert p s t. induction n as [| n IH]; intros p s t H; cbn [write_loop] in H.
  - unfold ret in H. injection H as _ <- <-. split; reflexivity.
  - apply bind_Some in H. destruct H as (v & s1 & t1 & t2 & K & H & ->).
    unfold peek in K. injection K as _ <- <-.
    apply bind_Some in H. destruct H as (u & s2 & t3 & t4 & W & H & ->).
    apply i2c_Write_ram in W. apply IH in H.
    destruct W as [W1 W2], H as [H1 H2].
    split; [congruence |].
    cbn [app]. rewrite twdr_loads_app, W2, H2. reflexivity.
Qed.

Lemma read_loop_ram (n : nat) (p : Z) s x s' t :
  read_loop fuel n p s = Some (x, s', t) ->
  (forall q, ~ (p <= q < p + Z.of_nat n) -> ram s' q = ram s q)
  /\ buffer (ram s') p n = twdr_loads t.
Proof.
  revert p s t. induction n as [| n IH]; intros p s t H.
  - cbn [read_loop] in H. unfold ret in H. injection H as _ <- <-.
    split; reflexivity.
  - cbn [read_loop] in H.
    apply bind_Some in H. destruct H as (v & s1 & t1 & t2 & R & H & ->).
    apply bind_Some in H. destruct H as (u & s2 & t3 & t4 & K & H & ->).
    unfold poke in K. injection K as _ <- <-.
    apply i2c_Read_ram in R. destruct R as (R1 & R2 & R3).
    apply IH in H. cbn [ram] in H. destruct H as [Hf Hb].
    split.
    + intros q Hq. rewrite Hf by lia.
      replace (q =? p) with false by (symmetry; apply Z.eqb_neq; lia).
      congruence.
    + cbn [buffer app]. rewrite twdr_loads_app, R2, Hb, Hf by lia.
      rewrite Z.eqb_refl, R3. reflexivity.
Qed.

Lemma i2c_Start_ram s x s' t :
  i2c_Start fuel s = Some (x, s', t) -> ram s' = ram s /\ twdr_loads t = [].
Proof. apply command_ram. Qed.

Lemma i2c_Stop_ram s x s' t :
  i2c_Stop s = Some (x, s', t) -> ram s' = ram s /\ twdr_loads t = [].
Proof.
  unfold i2c_Stop, store. intros H. injection H as _ <- <-.
  split; reflexivity.
Qed.

Ltac use_ram :=
  repeat match goal with
    | E : i2c_Start _ _ = Some _ |- _ =>
        apply i2c_Start_ram in E; destruct E as [? ?]
    | E : i2c_Stop _ = Some _ |- _ =>
        apply i2c_Stop_ram in E; destruct E as [? ?]
    | E : i2c_Write _ _ _ = Some _ |- _ =>
        apply i2c_Write_ram in E; destruct E as [? ?]
    | E : write_loop _ _ _ _ = Some _ |- _ =>
        apply write_loop_ram in E; destruct E as [? ?]
    end.

Ltac no_data :=
  rewrite ?twdr_loads_app;
  repeat match goal with
    | E : twdr_loads ?t = _ |- context [twdr_loads ?t] => rewrite E
    end;
  cbn [app]; rewrite ?app_nil_r.

Lemma writeAddress_ram (a p n : Z) s x s' t :
  i2c_writeAddress fuel a p n s = Some (x, s', t) -> ram s' = ram s.
Proof.
  unfold i2c_writeAddress. intros H. split_run H. use_ram. congruence.
Qed.

Lemma readAdress_ram (a p n : Z) s x s' t :
  i2c_readAdress fuel a p n s = Some (x, s', t) ->
  (forall q, ~ (p <= q < p + Z.of_nat (iterations n)) -> ram s' q = ram s q)
  /\ buffer (ram s') p (iterations n) = twdr_loads t.
Proof.
  unfold i2c_readAdress. intros H. split_run H.
  apply read_loop_ram in E1. destruct E1 as [Hf Hb]. use_ram. split.
  - intros q Hq. replace (ram s') with (ram s2) by congruence.
    rewrite (Hf q Hq). congruence.
  - replace (ram s') with (ram s2) by congruence. rewrite Hb.
    no_data. reflexivity.
Qed.

Lemma readSequential_ram (a ptx ntx prx nrx : Z) s x s' t :
  i2c_readSequential fuel a ptx ntx prx nrx s = Some (x, s', t) ->
  (forall q, ~ (prx <= q < prx + Z.of_nat (iterations nrx)) ->
             ram s' q = ram s q)
  /\ buffer (ram s') prx (iterations nrx) = twdr_loads t.
Proof.
  unfold i2c_readSequential. intros H. split_run H.
  apply read_loop_ram in E4. destruct E4 as [Hf Hb]. use_ram. split.
  - intros q Hq. replace (ram s') with (ram s5) by congruence.
    rewrite (Hf q Hq). congruence.
  - replace (ram s') with (ram s5) by congruence. rewrite Hb.
    no_data. reflexivity.
Qed.

End Memory.

(** ** Counting bus operations *)

Lemma count_ops_app (f : bus_op -> bool) (l1 l2 : list bus_op) :
  count_ops f (l1 ++ l2) = (count_ops f l1 + count_ops f l2)%nat.
Proof. unfold count_ops. rewrite filter_app, length_app. reflexivity. Qed.

Lemma count_ops_writes (f : bus_op -> bool) (d : list Z) :
  (forall b, f (WriteByte b) = false) -> count_ops f (map WriteByte d) = O.
Proof.
  intros H. unfold count_ops.
  induction d as [| b d IH]; [reflexivity |].
  cbn [map filter]. rewrite H. exact IH.
Qed.

Lemma count_ops_reads (f : bus_op -> bool) (l : list bool) :
  (forall b, f (ReadByte b) = false) -> count_ops f (map ReadByte l) = O.
Proof.
  intros H. unfold count_ops.
  induction l as [| b l IH]; [reflexivity |].
  cbn [map filter]. rewrite H. exact IH.
Qed.

Lemma iterations_small (n : Z) : 0 <= n < 65536 -> iterations n = Z.to_nat n.
Proof. intros H. unfold iterations, u16. rewrite Z.mod_small by lia. reflexivity. Qed.

(** * The claims *)

(** C1.  For every 7-bit address [a] and every count [c >= 1], a burst read
    issues one Start, the address byte [(a<<1)|1], then [c] reads answered
    by ACK [c-1] times and by NACK once, on the last byte, then one Stop;
    with [c = 1] the only byte is answered by NACK.  The run returns when
    the peripheral is responsive. *)
Theorem readAdress_burst {B : TwiBits} {P : Peripheral}
    (fuel : nat) (a p c : Z) (s : machine) :
  twcr_layout_ok B = true -> 0 <= a < 128 -> 1 <= c < 65536 ->
  (responsive fuel -> i2c_readAdress fuel a p c s <> None)
  /\ forall x s' t,
       i2c_readAdress fuel a p c s = Some (x, s', t) ->
       bus_ops t =
         [Start; WriteByte (Z.lor (Z.shiftl a 1) 1)]
         ++ map ReadByte (repeat true (Z.to_nat c - 1) ++ [false])
         ++ [Stop]
       /\ (c = 1 ->
           bus_ops t =
             [Start; WriteByte (Z.lor (Z.shiftl a 1) 1); ReadByte false; Stop]).
Proof.
  intros L Ha Hc. split.
  - intros R. apply readAdress_returns; assumption.
  - intros x s' t H. apply (readAdress_spec fuel L) in H.
    destruct H as [(O & _) _].
    rewrite wire_address_7bit in O by lia.
    rewrite iterations_small in O by lia. unfold address_byte in O.
    assert (E : ack_pattern (Z.to_nat c) = repeat true (Z.to_nat c - 1) ++ [false]).
    { destruct (Z.to_nat c) as [| k] eqn:Ek; [lia |].
      cbn [ack_pattern]. replace (S k - 1)%nat with k by lia. reflexivity. }
    rewrite E in O. split; [exact O |].
    intros ->. exact O.
Qed.

(** C2.  For every address [a] in [0,127] and every byte sequence [d] held
    by the caller's buffer, in particular every non-empty one, a burst
    write issues one Start, the address byte [(a<<1)|0], the bytes of [d] in
    their order, then one Stop after the last of them.  The run returns when
    the peripheral is responsive. *)
Theorem writeAddress_burst {B : TwiBits} {P : Peripheral}
    (fuel : nat) (a p : Z) (d : list Z) (s : machine) :
  twcr_layout_ok B = true -> 0 <= a < 128 ->
  Z.of_nat (length d) < 65536 ->
  Forall (fun b => 0 <= b < 256) d ->
  buffer (ram s) p (length d) = d ->
  (responsive fuel ->
   i2c_writeAddress fuel a p (Z.of_nat (length d)) s <> None)
  /\ forall x s' t,
       i2c_writeAddress fuel a p (Z.of_nat (length d)) s = Some (x, s', t) ->
       bus_ops t =
         [Start; WriteByte (Z.lor (Z.shiftl a 1) 0)]
         ++ map WriteByte d ++ [Stop].
Proof.
  intros L Ha Hn Hb Hd. split.
  - intros R. apply writeAddress_returns; assumption.
  - intros x s' t H. apply (writeAddress_spec fuel L) in H.
    destruct H as [_ (O & _)].
    rewrite wire_address_7bit in O by lia.
    rewrite iterations_small, Nat2Z.id in O by lia.
    rewrite bytes_at_bytes in O by (rewrite Hd; exact Hb).
    rewrite Hd in O. exact O.
Qed.

(** C5.  For every address [a], a burst read of zero bytes and a burst
    write of the empty sequence issue Start, the address byte and Stop, and
    no data byte: nothing is written after the address and nothing is
    read. *)
Theorem empty_bursts {B : TwiBits} {P : Peripheral}
    (fuel : nat) (a p : Z) (s : machine) :
  twcr_layout_ok B = true -> 0 <= a < 128 ->
  (responsive fuel ->
   i2c_readAdress fuel a p 0 s <> None /\ i2c_writeAddress fuel a p 0 s <> None)
  /\ (forall x s' t,
        i2c_readAdress fuel a p 0 s = Some (x, s', t) ->
        bus_ops t = [Start; WriteByte (Z.lor (Z.shiftl a 1) 1); Stop]
        /\ twdr_loads t = [])
  /\ (forall x s' t,
        i2c_writeAddress fuel a p 0 s = Some (x, s', t) ->
        bus_ops t = [Start; WriteByte (Z.lor (Z.shiftl a 1) 0); Stop]).
Proof.
  intros L Ha. split; [| split].
  - intros R. split;
      [apply readAdress_returns | apply writeAddress_returns]; assumption.
  - intros x s' t H. apply (readAdress_spec fuel L) in H.
    destruct H as [(O & _ & R & _) _].
    rewrite wire_address_7bit in O by lia. split; assumption.
  - intros x s' t H. apply (writeAddress_spec fuel L) in H.
    destruct H as [_ (O & _)].
    rewrite wire_address_7bit in O by lia. exact O.
Qed.

(** C3.  A write followed by a read issues two Starts and one Stop.  The
    write phase (Start, address byte [(a<<1)|0], the bytes of [tx]) comes
    whole before the second Start and holds no Stop; after the second Start
    come the address byte [(a<<1)|1] and [rxCount] reads answered as in a
    burst read, then the one Stop.  The run returns when the peripheral is
    responsive. *)
Theorem readSequential_repeated_start {B : TwiBits} {P : Peripheral}
    (fuel : nat) (a ptx prx rxCount : Z) (tx : list Z) (s : machine) :
  twcr_layout_ok B = true -> 0 <= a < 128 ->
  Z.of_nat (length tx) < 65536 ->
  Forall (fun b => 0 <= b < 256) tx ->
  buffer (ram s) ptx (length tx) = tx ->
  0 <= rxCount < 65536 ->
  (responsive fuel ->
   i2c_readSequential fuel a ptx (Z.of_nat (length tx)) prx rxCount s <> None)
  /\ forall x s' t,
       i2c_readSequential fuel a ptx (Z.of_nat (length tx)) prx rxCount s
       = Some (x, s', t) ->
       bus_ops t =
         write_phase a tx ++ read_phase a (Z.to_nat rxCount) ++ [Stop]
       /\ count_ops is_start (bus_ops t) = 2%nat
       /\ count_ops is_stop (bus_ops t) = 1%nat
       /\ count_ops is_start (write_phase a tx) = 1%nat
       /\ count_ops is_stop (write_phase a tx) = 0%nat
       /\ forall p2 (s2 : machine) x2 s2' t2,
            i2c_readAdress fuel a p2 rxCount s2 = Some (x2, s2', t2) ->
            bus_ops t2 = read_phase a (Z.to_nat rxCount) ++ [Stop].
Proof.
  intros L Ha Hn Hb Hd Hc. split.
  - intros R. apply readSequential_returns; assumption.
  - intros x s' t H. apply (readSequential_spec fuel L) in H.
    destruct H as [(O & _) _].
    rewrite !wire_address_7bit in O by lia.
    rewrite !iterations_small, Nat2Z.id in O by lia.
    rewrite bytes_at_bytes in O by (rewrite Hd; exact Hb).
    rewrite Hd in O. fold (write_phase a tx) in O.
    fold (read_phase a (Z.to_nat rxCount)) in O.
    assert (Ws : count_ops is_start (write_phase a tx) = 1%nat).
    { unfold write_phase. rewrite count_ops_app, count_ops_writes; reflexivity. }
    assert (Wp : count_ops is_stop (write_phase a tx) = 0%nat).
    { unfold write_phase. rewrite count_ops_app, count_ops_writes; reflexivity. }
    assert (Rs : count_ops is_start (read_phase a (Z.to_nat rxCount)) = 1%nat).
    { unfold read_phase. rewrite count_ops_app, count_ops_reads; reflexivity. }
    assert (Rp : count_ops is_stop (read_phase a (Z.to_nat rxCount)) = 0%nat).
    { unfold read_phase. rewrite count_ops_app, count_ops_reads; reflexivity. }
    rewrite O, !count_ops_app, Ws, Wp, Rs, Rp.
    repeat split.
    intros p2 s2 x2 s2' t2 H2. apply (readAdress_spec fuel L) in H2.
    destruct H2 as [(O2 & _) _].
    rewrite wire_address_7bit in O2 by lia.
    rewrite iterations_small in O2 by lia.
    rewrite O2. unfold read_phase. rewrite <- app_assoc. reflexivity.
Qed.

(** C4.  Every returning run of a transaction issues a Start first and a
    Stop last, with no other Stop and, between them, no other Start, but for
    the write followed by a read, which has the one repeated Start.  No run
    returns without its Stop, and every run returns when the peripheral is
    responsive. *)
Theorem transactions_bracketed {B : TwiBits} {P : Peripheral}
    (fuel : nat) (a p n ptx ntx prx nrx : Z) (s : machine) :
  twcr_layout_ok B = true ->
  (responsive fuel ->
   i2c_writeAddress fuel a p n s <> None
   /\ i2c_readAdress fuel a p n s <> None
   /\ i2c_readSequential fuel a ptx ntx prx nrx s <> None)
  /\ (forall x s' t,
        i2c_writeAddress fuel a p n s = Some (x, s', t) ->
        exists body,
          bus_ops t = Start :: body ++ [Stop]
          /\ count_ops is_start body = 0%nat
          /\ count_ops is_stop body = 0%nat)
  /\ (forall x s' t,
        i2c_readAdress fuel a p n s = Some (x, s', t) ->
        exists body,
          bus_ops t = Start :: body ++ [Stop]
          /\ count_ops is_start body = 0%nat
          /\ count_ops is_stop body = 0%nat)
  /\ (forall x s' t,
        i2c_readSequential fuel a ptx ntx prx nrx s = Some (x, s', t) ->
        exists body,
          bus_ops t = Start :: body ++ [Stop]
          /\ count_ops is_start body = 1%nat
          /\ count_ops is_stop body = 0%nat).
Proof.
  intros L. split; [| split; [| split]].
  - intros R. repeat split.
    + apply writeAddress_returns; assumption.
    + apply readAdress_returns; assumption.
    + apply readSequential_returns; assumption.
  - intros x s' t H. apply (writeAddress_spec fuel L) in H.
    destruct H as [_ (O & _)].
    exists ([WriteByte (u8 (Z.lor (Z.shiftl (u8 a) 1) 0))]
            ++ map WriteByte (bytes_at (ram s) p (iterations n))).
    split; [exact O |].
    rewrite !count_ops_app, !count_ops_writes; repeat split.
  - intros x s' t H. apply (readAdress_spec fuel L) in H.
    destruct H as [(O & _) _].
    exists ([WriteByte (u8 (Z.lor (Z.shiftl (u8 a) 1) 1))]
            ++ map ReadByte (ack_pattern (iterations n))).
    split; [exact O |].
    rewrite !count_ops_app, !count_ops_reads; repeat split.
  - intros x s' t H. apply (readSequential_spec fuel L) in H.
    destruct H as [(O & _) _].
    exists ([WriteByte (u8 (Z.lor (Z.shiftl (u8 a) 1) 0))]
            ++ map WriteByte (bytes_at (ram s) ptx (iterations ntx))
            ++ [Start; WriteByte (u8 (Z.lor (Z.shiftl (u8 a) 1) 1))]
            ++ map ReadByte (ack_pattern (iterations nrx))).
    split.
    + rewrite O. cbn [app]. rewrite <- !app_assoc. reflexivity.
    + rewrite !count_ops_app, !count_ops_writes, !count_ops_reads;
        repeat split.
Qed.

(** C6.  Against the simulated slave at address 0x50 whose register 0x10
    holds 0xAA and the next one 0xBB, writing the register number 0x10 and
    reading two bytes returns, selects register 0x10 on the bus, and fills
    the caller's receive buffer with the two bytes the slave supplied, in
    order: 0xAA, 0xBB; this for every latency of the peripheral within the
    polling budget and every place of the two buffers. *)
Theorem register_read_round_trip
    (latency fuel : nat) (ptx prx : Z) (m : Z -> Z) :
  (latency < fuel)%nat -> u8 (m ptx) = 16 ->
  exists s' t,
    @i2c_readSequential atmega328 (Sim.peripheral Sim.sensor latency) fuel
      80 ptx 1 prx 2 (Sim.boot Sim.sensor latency m)
    = Some (tt, s', t)
    /\ @bus_ops atmega328 t =
         [Start; WriteByte 160; WriteByte 16;
          Start; WriteByte 161; ReadByte true; ReadByte false; Stop]
    /\ twdr_loads t = [170; 187]
    /\ buffer (ram s') prx 2 = [170; 187].
Proof.
  intros Hf Hm.
  destruct (sim_round_trip_run latency fuel ptx prx m Hf Hm) as [d E].
  apply final_Some in E. destruct E as [t E].
  eexists. exists t. split; [exact E |].
  assert (Hb : buffer (fun q => if q =? prx + 1 then 187
                                else if q =? prx then 170 else m q) prx 2
               = [170; 187]).
  { cbn [buffer]. rewrite !Z.eqb_refl.
    replace (prx =? prx + 1) with false by (symmetry; apply Z.eqb_neq; lia).
    reflexivity. }
  apply (@readSequential_spec atmega328 _ fuel eq_refl) in E.
  destruct E as [(O & _ & R & _) _]. cbn [ram] in O, R.
  change (iterations 2) with 2%nat in O, R.
  change (iterations 1) with 1%nat in O.
  rewrite Hb in R. split; [| split; [exact R | exact Hb]].
  rewrite O. unfold bytes_at. cbn [buffer map Sim.boot ram]. rewrite Hm.
  reflexivity.
Qed.

(** ** Initialisation *)

Section Config.

Context {B : TwiBits} {P : Peripheral}.
Variable config : Dev -> twi_config.
Hypothesis twcr_ok : twcr_layout_ok B = true.
Hypothesis twsr_ok : twsr_layout_ok B = true.
Hypothesis regs : holds_config config.

Lemma bitClear_config (b : Z) (s : machine) :
  0 <= b < 8 ->
  exists s1 t,
    bitClear TWSR b s = Some (tt, s1, t)
    /\ config (dev s1) =
       {| ps0 := ps0 (config (dev s)) && negb (b =? TWPS0);
          ps1 := ps1 (config (dev s)) && negb (b =? TWPS1);
          rate := rate (config (dev s));
          enabled := enabled (config (dev s)) |}.
Proof.
  intros Hb. destruct (twsr_layout_facts twsr_ok) as (R0 & R1 & _).
  unfold bitClear, bind, load, store.
  pose proof (load_keeps config regs TWSR (dev s)) as K.
  pose proof (load_shows_ps0 config regs (dev s)) as K0.
  pose proof (load_shows_ps1 config regs (dev s)) as K1.
  destruct (dev_load TWSR (dev s)) as [v d]. cbn [fst snd] in K, K0, K1.
  eexists. eexists. split; [reflexivity |]. cbn [dev].
  rewrite (store_TWSR config regs), K.
  rewrite !u8_testbit, !Z.land_spec, !Z.lnot_spec, !bit_testbit, K0, K1
    by lia.
  reflexivity.
Qed.

Lemma bitSet_config (s : machine) :
  exists s1 t,
    bitSet TWCR TWEN s = Some (tt, s1, t)
    /\ config (dev s1) =
       {| ps0 := ps0 (config (dev s)); ps1 := ps1 (config (dev s));
          rate := rate (config (dev s)); enabled := true |}.
Proof.
  destruct (twcr_layout_facts twcr_ok) as ((_ & _ & _ & _ & Re) & _).
  unfold bitSet, bind, load, store.
  pose proof (load_keeps config regs TWCR (dev s)) as K.
  destruct (dev_load TWCR (dev s)) as [v d]. cbn [snd] in K.
  eexists. eexists. split; [reflexivity |]. cbn [dev].
  rewrite (store_TWCR config regs), K.
  rewrite u8_testbit, Z.lor_spec, bit_testbit, Z.eqb_refl, orb_true_r by lia.
  reflexivity.
Qed.

(** Whatever the registers held, the initialisation leaves prescaler 1,
    bit rate 72 and the module enabled. *)
Lemma init_config (s : machine) :
  exists s1 t,
    i2c_Init s = Some (tt, s1, t)
    /\ config (dev s1) =
       {| ps0 := false; ps1 := false; rate := 72; enabled := true |}.
Proof.
  destruct (twsr_layout_facts twsr_ok) as (R0 & R1 & D).
  destruct (bitClear_config TWPS0 s R0) as (s1 & t1 & E1 & C1).
  destruct (bitClear_config TWPS1 s1 R1) as (s2 & t2 & E2 & C2).
  destruct (bitSet_config
              {| dev := dev_store TWBR (u8 72) (dev s2); ram := ram s2 |})
    as (s4 & t4 & E4 & C4).
  exists s4. eexists. split.
  - unfold i2c_Init. unfold bind at 1. rewrite E1.
    unfold bind at 1. rewrite E2.
    unfold bind at 1. unfold store at 1. rewrite E4. reflexivity.
  - rewrite C4. cbn [dev]. rewrite (store_TWBR config regs), C2, C1.
    cbn [ps0 ps1 rate enabled].
    rewrite !Z.eqb_refl. cbn [negb]. rewrite !andb_false_r. reflexivity.
Qed.

End Config.

(** C7.  Initialising twice leaves the prescaler bits, the bit rate
    register and the enable bit as initialising once does: prescaler 1,
    rate 72, module enabled. *)
Theorem init_idempotent {B : TwiBits} {P : Peripheral}
    (config : Dev -> twi_config) (s : machine) :
  twcr_layout_ok B = true -> twsr_layout_ok B = true ->
  holds_config config ->
  exists s1 t1 s2 t2,
    i2c_Init s = Some (tt, s1, t1)
    /\ i2c_Init s1 = Some (tt, s2, t2)
    /\ config (dev s2) = config (dev s1)
    /\ config (dev s1) =
       {| ps0 := false; ps1 := false; rate := 72; enabled := true |}.
Proof.
  intros L1 L2 R.
  destruct (init_config config L1 L2 R s) as (s1 & t1 & E1 & C1).
  destruct (init_config config L1 L2 R s1) as (s2 & t2 & E2 & C2).
  exists s1, t1, s2, t2. repeat split; congruence.
Qed.

Lemma i2c_Init_returns {B : TwiBits} {P : Peripheral} (s : machine) :
  i2c_Init s <> None.
Proof.
  unfold i2c_Init, bitClear, bitSet, bind, load, store. cbn [dev ram].
  destruct (dev_load TWSR (dev s)) as [v1 d1].
  destruct (dev_load TWSR _) as [v2 d2].
  destruct (dev_load TWCR _) as [v3 d3]. discriminate.
Qed.

(** C8.  No operation reports an error.  Whatever the peripheral answers,
    a returning run of a bus primitive or of a transaction never accesses
    the status register and has issued the whole sequence of bus
    operations its arguments fix; what it returns is the one value of
    [void], or for a byte read the byte loaded from the data register.
    The initialisation always returns, and every other operation returns
    when the peripheral is responsive. *)
Theorem no_error_reporting {B : TwiBits} {P : Peripheral}
    (fuel : nat) (b a p n ptx ntx prx nrx : Z) (ack : bool) (s : machine) :
  twcr_layout_ok B = true ->
  i2c_Init s <> None
  /\ i2c_Stop s <> None
  /\ (responsive fuel ->
      i2c_Start fuel s <> None
      /\ i2c_Write fuel b s <> None
      /\ i2c_Read fuel ack s <> None
      /\ i2c_writeAddress fuel a p n s <> None
      /\ i2c_readAdress fuel a p n s <> None
      /\ i2c_readSequential fuel a ptx ntx prx nrx s <> None)
  /\ (forall x s' t,
        i2c_Start fuel s = Some (x, s', t) ->
        x = tt /\ touches_status t = false /\ bus_ops t = [Start])
  /\ (forall x s' t,
        i2c_Stop s = Some (x, s', t) ->
        x = tt /\ touches_status t = false /\ bus_ops t = [Stop])
  /\ (forall x s' t,
        i2c_Write fuel b s = Some (x, s', t) ->
        x = tt /\ touches_status t = false
        /\ bus_ops t = [WriteByte (u8 b)])
  /\ (forall v s' t,
        i2c_Read fuel ack s = Some (v, s', t) ->
        twdr_loads t = [v] /\ touches_status t = false
        /\ bus_ops t = [ReadByte ack])
  /\ (forall x s' t,
        i2c_writeAddress fuel a p n s = Some (x, s', t) ->
        x = tt /\ touches_status t = false
        /\ bus_ops t =
             [Start; WriteByte (u8 (address_byte (u8 a) 0))]
             ++ map WriteByte (bytes_at (ram s) p (iterations n))
             ++ [Stop])
  /\ (forall x s' t,
        i2c_readAdress fuel a p n s = Some (x, s', t) ->
        x = tt /\ touches_status t = false
        /\ bus_ops t =
             [Start; WriteByte (u8 (address_byte (u8 a) 1))]
             ++ map ReadByte (ack_pattern (iterations n))
             ++ [Stop])
  /\ (forall x s' t,
        i2c_readSequential fuel a ptx ntx prx nrx s = Some (x, s', t) ->
        x = tt /\ touches_status t = false
        /\ bus_ops t =
             ([Start; WriteByte (u8 (address_byte (u8 a) 0))]
              ++ map WriteByte (bytes_at (ram s) ptx (iterations ntx)))
             ++ ([Start; WriteByte (u8 (address_byte (u8 a) 1))]
                 ++ map ReadByte (ack_pattern (iterations nrx)))
             ++ [Stop]).
Proof.
  intros L. unfold address_byte.
  split; [apply i2c_Init_returns |].
  split; [apply i2c_Stop_returns |].
  split; [| repeat split].
  - intros R. repeat split.
    + apply i2c_Start_returns; assumption.
    + apply i2c_Write_returns; assumption.
    + apply i2c_Read_returns; assumption.
    + apply writeAddress_returns; assumption.
    + apply readAdress_returns; assumption.
    + apply readSequential_returns; assumption.
  - destruct x. reflexivity.
  - apply (i2c_Start_spec fuel L) in H. apply H.
  - apply (i2c_Start_spec fuel L) in H. apply H.
  - destruct x. reflexivity.
  - apply (i2c_Stop_spec L) in H. apply H.
  - apply (i2c_Stop_spec L) in H. apply H.
  - destruct x. reflexivity.
  - apply (i2c_Write_spec fuel L) in H. apply H.
  - apply (i2c_Write_spec fuel L) in H. apply H.
  - apply (i2c_Read_spec fuel L) in H. apply H.
  - apply (i2c_Read_spec fuel L) in H. apply H.
  - apply (i2c_Read_spec fuel L) in H. apply H.
  - destruct x. reflexivity.
  - apply (writeAddress_spec fuel L) in H. apply H.
  - apply (writeAddress_spec fuel L) in H. apply H.
  - destruct x. reflexivity.
  - apply (readAdress_spec fuel L) in H. apply H.
  - apply (readAdress_spec fuel L) in H. apply H.
  - destruct x. reflexivity.
  - apply (readSequential_spec fuel L) in H. apply H.
  - apply (readSequential_spec fuel L) in H. apply H.
Qed.

(** C9.  The transactions change the caller's memory in the receive buffer
    only.  A burst write and the write phase of a write followed by a read
    leave the whole memory as it was; a burst read and a write followed by
    a read leave every byte outside the first [count] bytes of the receive
    buffer as it was, and put there the bytes read from the data
    register. *)
Theorem caller_memory_frame {B : TwiBits} {P : Peripheral}
    (fuel : nat) (a p n ptx ntx prx nrx : Z) (s : machine) :
  (forall x s' t,
     i2c_writeAddress fuel a p n s = Some (x, s', t) -> ram s' = ram s)
  /\ (forall x s' t,
        write_loop fuel (iterations ntx) ptx s = Some (x, s', t) ->
        ram s' = ram s)
  /\ (forall x s' t,
        i2c_readAdress fuel a p n s = Some (x, s', t) ->
        (forall q, ~ (p <= q < p + u16 n) -> ram s' q = ram s q)
        /\ buffer (ram s') p (iterations n) = twdr_loads t)
  /\ (forall x s' t,
        i2c_readSequential fuel a ptx ntx prx nrx s = Some (x, s', t) ->
        (forall q, ~ (prx <= q < prx + u16 nrx) -> ram s' q = ram s q)
        /\ buffer (ram s') prx (iterations nrx) = twdr_loads t).
Proof.
  assert (I : forall k, Z.of_nat (iterations k) = u16 k).
  { intros k. unfold iterations. apply Z2Nat.id.
    unfold u16. apply Z.mod_pos_bound. lia. }
  split; [| split; [| split]].
  - intros x s' t H. exact (writeAddress_ram fuel _ _ _ _ _ _ _ H).
  - intros x s' t H. exact (proj1 (write_loop_ram fuel _ _ _ _ _ _ H)).
  - intros x s' t H. apply readAdress_ram in H. rewrite I in H. exact H.
  - intros x s' t H. apply readSequential_ram in H. rewrite I in H. exact H.
Qed.

(** ** Addresses of eight bits *)

Lemma i2c_Write_u8 {B : TwiBits} {P : Peripheral} (fuel : nat) (x y : Z) :
  u8 x = u8 y -> i2c_Write fuel x = i2c_Write fuel y.
Proof. intros H. unfold i2c_Write. rewrite H. reflexivity. Qed.

(** C10.  For every address argument, also one of 128 to 255, the address
    byte on the bus is [((a * 2) mod 256) | direction]: the top bit of the
    argument is dropped, and the transactions run for [a] exactly as they
    run for [a mod 128].  The runs return, and so send that byte, when the
    peripheral is responsive. *)
Theorem address_truncation {B : TwiBits} {P : Peripheral}
    (fuel : nat) (a p n ptx ntx prx nrx : Z) (s : machine) :
  twcr_layout_ok B = true ->
  (responsive fuel ->
   i2c_writeAddress fuel a p n s <> None
   /\ i2c_readAdress fuel a p n s <> None
   /\ i2c_readSequential fuel a ptx ntx prx nrx s <> None)
  /\ i2c_writeAddress fuel a p n s = i2c_writeAddress fuel (a mod 128) p n s
  /\ i2c_readAdress fuel a p n s = i2c_readAdress fuel (a mod 128) p n s
  /\ i2c_readSequential fuel a ptx ntx prx nrx s
     = i2c_readSequential fuel (a mod 128) ptx ntx prx nrx s
  /\ (forall x s' t,
        i2c_writeAddress fuel a p n s = Some (x, s', t) ->
        exists rest,
          bus_ops t = Start :: WriteByte (Z.lor ((a * 2) mod 256) 0) :: rest)
  /\ (forall x s' t,
        i2c_readAdress fuel a p n s = Some (x, s', t) ->
        exists rest,
          bus_ops t = Start :: WriteByte (Z.lor ((a * 2) mod 256) 1) :: rest)
  /\ (forall x s' t,
        i2c_readSequential fuel a ptx ntx prx nrx s = Some (x, s', t) ->
        exists mid rest,
          bus_ops t =
            Start :: WriteByte (Z.lor ((a * 2) mod 256) 0) :: mid
            ++ Start :: WriteByte (Z.lor ((a * 2) mod 256) 1) :: rest).
Proof.
  intros L.
  assert (W0 : i2c_Write fuel (Z.lor (Z.shiftl (u8 a) 1) 0)
               = i2c_Write fuel (Z.lor (Z.shiftl (u8 (a mod 128)) 1) 0)).
  { apply i2c_Write_u8, wire_address_mod128. lia. }
  assert (W1 : i2c_Write fuel (Z.lor (Z.shiftl (u8 a) 1) 1)
               = i2c_Write fuel (Z.lor (Z.shiftl (u8 (a mod 128)) 1) 1)).
  { apply i2c_Write_u8, wire_address_mod128. lia. }
  split.
  { intros R. repeat split.
    - apply writeAddress_returns; assumption.
    - apply readAdress_returns; assumption.
    - apply readSequential_returns; assumption. }
  repeat split.
  - unfold i2c_writeAddress, __i2c_WriteCmd. rewrite W0. reflexivity.
  - unfold i2c_readAdress, __i2c_ReadCmd. rewrite W1. reflexivity.
  - unfold i2c_readSequential, __i2c_WriteCmd, __i2c_ReadCmd.
    rewrite W0, W1. reflexivity.
  - intros x s' t H. apply (writeAddress_spec fuel L) in H.
    destruct H as [_ (O & _)]. rewrite wire_address in O by lia.
    eexists. exact O.
  - intros x s' t H. apply (readAdress_spec fuel L) in H.
    destruct H as [(O & _) _]. rewrite wire_address in O by lia.
    eexists. exact O.
  - intros x s' t H. apply (readSequential_spec fuel L) in H.
    destruct H as [(O & _) _]. rewrite !wire_address in O by lia.
    eexists. eexists. exact O.
Qed.

(** * The claims on the simulated peripheral *)

Lemma returned {A : Type} (r : option A) : r <> None -> exists v, r = Some v.
Proof. destruct r as [v |]; [exists v; reflexivity | congruence]. Qed.

Lemma readAdress_burst_witness :
  exists s' t,
    @i2c_readAdress atmega328 (Sim.peripheral Sim.sensor 2) 3 80 200 3
      (Sim.boot Sim.sensor 2 (fun _ => 0)) = Some (tt, s', t)
    /\ @bus_ops atmega328 t =
         [Start; WriteByte 161; ReadByte true; ReadByte true; ReadByte false;
          Stop].
Proof.
  destruct (@readAdress_burst atmega328 (Sim.peripheral Sim.sensor 2) 3
              80 200 3 (Sim.boot Sim.sensor 2 (fun _ => 0))
              eq_refl ltac:(lia) ltac:(lia)) as [R O].
  destruct (returned _ (R (sim_responsive Sim.sensor 2 3 ltac:(lia))))
    as [[[[] s'] t] E].
  exists s', t. split; [exact E | exact (proj1 (O _ _ _ E))].
Defined.

Lemma writeAddress_burst_witness :
  exists s' t,
    @i2c_writeAddress atmega328 (Sim.peripheral Sim.sensor 2) 3 80 100 3
      (Sim.boot Sim.sensor 2 (Sim.ram_with 100 [16; 1; 2])) = Some (tt, s', t)
    /\ @bus_ops atmega328 t =
         [Start; WriteByte 160; WriteByte 16; WriteByte 1; WriteByte 2; Stop].
Proof.
  destruct (@writeAddress_burst atmega328 (Sim.peripheral Sim.sensor 2) 3
              80 100 [16; 1; 2]
              (Sim.boot Sim.sensor 2 (Sim.ram_with 100 [16; 1; 2]))
              eq_refl ltac:(lia) ltac:(cbn; lia)
              ltac:(repeat constructor; lia) eq_refl) as [R O].
  destruct (returned _ (R (sim_responsive Sim.sensor 2 3 ltac:(lia))))
    as [[[[] s'] t] E].
  exists s', t. split; [exact E | exact (O _ _ _ E)].
Defined.

Lemma readSequential_repeated_start_witness :
  exists s' t,
    @i2c_readSequential atmega328 (Sim.peripheral Sim.sensor 2) 3
      80 100 1 200 2 (Sim.boot Sim.sensor 2 (Sim.ram_with 100 [16]))
    = Some (tt, s', t)
    /\ @bus_ops atmega328 t =
         [Start; WriteByte 160; WriteByte 16;
          Start; WriteByte 161; ReadByte true; ReadByte false; Stop]
    /\ count_ops is_start (@bus_ops atmega328 t) = 2%nat
    /\ count_ops is_stop (@bus_ops atmega328 t) = 1%nat.
Proof.
  destruct (@readSequential_repeated_start atmega328
              (Sim.peripheral Sim.sensor 2) 3 80 100 200 2 [16]
              (Sim.boot Sim.sensor 2 (Sim.ram_with 100 [16]))
              eq_refl ltac:(lia) ltac:(cbn; lia)
              ltac:(repeat constructor; lia) eq_refl ltac:(lia)) as [R O].
  destruct (returned _ (R (sim_responsive Sim.sensor 2 3 ltac:(lia))))
    as [[[[] s'] t] E].
  destruct (O _ _ _ E) as (O1 & O2 & O3 & _).
  exists s', t. repeat split; assumption.
Defined.

Lemma transactions_bracketed_witness :
  exists s' t body,
    @i2c_readSequential atmega328 (Sim.peripheral Sim.sensor 2) 3
      80 100 1 200 2 (Sim.boot Sim.sensor 2 (Sim.ram_with 100 [16]))
    = Some (tt, s', t)
    /\ @bus_ops atmega328 t = Start :: body ++ [Stop]
    /\ count_ops is_start body = 1%nat
    /\ count_ops is_stop body = 0%nat.
Proof.
  destruct (@transactions_bracketed atmega328 (Sim.peripheral Sim.sensor 2) 3
              80 100 1 100 1 200 2
              (Sim.boot Sim.sensor 2 (Sim.ram_with 100 [16])) eq_refl)
    as (R & _ & _ & O).
  destruct (R (sim_responsive Sim.sensor 2 3 ltac:(lia))) as (_ & _ & R3).
  destruct (returned _ R3) as [[[[] s'] t] E].
  destruct (O _ _ _ E) as (body & O1).
  exists s', t, body. split; [exact E | exact O1].
Defined.

Lemma empty_bursts_witness :
  exists s' t,
    @i2c_readAdress atmega328 (Sim.peripheral Sim.sensor 2) 3 80 200 0
      (Sim.boot Sim.sensor 2 (fun _ => 0)) = Some (tt, s', t)
    /\ @bus_ops atmega328 t = [Start; WriteByte 161; Stop]
    /\ twdr_loads t = [].
Proof.
  destruct (@empty_bursts atmega328 (Sim.peripheral Sim.sensor 2) 3 80 200
              (Sim.boot Sim.sensor 2 (fun _ => 0)) eq_refl ltac:(lia))
    as (R & O & _).
  destruct (R (sim_responsive Sim.sensor 2 3 ltac:(lia))) as [R1 _].
  destruct (returned _ R1) as [[[[] s'] t] E].
  exists s', t. split; [exact E | exact (O _ _ _ E)].
Defined.

Lemma init_idempotent_witness :
  exists s1 t1 s2 t2,
    @i2c_Init atmega328 (Sim.peripheral Sim.sensor 2)
      (Sim.boot Sim.sensor 2 (fun _ => 0)) = Some (tt, s1, t1)
    /\ @i2c_Init atmega328 (Sim.peripheral Sim.sensor 2) s1 = Some (tt, s2, t2)
    /\ Sim.config (dev s2) = Sim.config (dev s1)
    /\ Sim.config (dev s1) =
       {| ps0 := false; ps1 := false; rate := 72; enabled := true |}.
Proof.
  exact (@init_idempotent atmega328 (Sim.peripheral Sim.sensor 2) Sim.config
           (Sim.boot Sim.sensor 2 (fun _ => 0)) eq_refl eq_refl
           (sim_holds_config Sim.sensor 2)).
Defined.

(** No slave answers at address 0x21: every byte is met by NACK, and the
    burst write runs to its Stop all the same. *)
Lemma no_error_reporting_witness :
  exists s' t,
    @i2c_writeAddress atmega328 (Sim.peripheral Sim.sensor 2) 3 33 100 2
      (Sim.boot Sim.sensor 2 (Sim.ram_with 100 [7; 9])) = Some (tt, s', t)
    /\ touches_status t = false
    /\ @bus_ops atmega328 t =
         [Start; WriteByte 66; WriteByte 7; WriteByte 9; Stop].
Proof.
  destruct (@no_error_reporting atmega328 (Sim.peripheral Sim.sensor 2) 3
              0 33 100 2 100 2 200 2 true
              (Sim.boot Sim.sensor 2 (Sim.ram_with 100 [7; 9])) eq_refl)
    as (_ & _ & R & _ & _ & _ & _ & O & _).
  destruct (R (sim_responsive Sim.sensor 2 3 ltac:(lia)))
    as (_ & _ & _ & R2 & _).
  destruct (returned _ R2) as [[[[] s'] t] E].
  destruct (O _ _ _ E) as (_ & O1 & O2).
  exists s', t. repeat split; assumption.
Defined.

Lemma address_truncation_witness :
  exists s' t rest,
    @i2c_readAdress atmega328 (Sim.peripheral Sim.sensor 2) 3 208 200 2
      (Sim.boot Sim.sensor 2 (fun _ => 0)) = Some (tt, s', t)
    /\ @i2c_readAdress atmega328 (Sim.peripheral Sim.sensor 2) 3 80 200 2
         (Sim.boot Sim.sensor 2 (fun _ => 0)) = Some (tt, s', t)
    /\ @bus_ops atmega328 t = Start :: WriteByte 161 :: rest.
Proof.
  destruct (@address_truncation atmega328 (Sim.peripheral Sim.sensor 2) 3
              208 200 2 100 1 200 2 (Sim.boot Sim.sensor 2 (fun _ => 0))
              eq_refl) as (R & _ & Q & _ & _ & O & _).
  destruct (R (sim_responsive Sim.sensor 2 3 ltac:(lia))) as (_ & R2 & _).
  destruct (returned _ R2) as [[[[] s'] t] E].
  destruct (O _ _ _ E) as [rest T].
  exists s', t, rest. split; [exact E |]. split; [| exact T].
  change 80 with (208 mod 128). rewrite <- Q. exact E.
Defined.

Lemma caller_memory_frame_witness :
  exists s' t,
    @i2c_readAdress atmega328 (Sim.peripheral Sim.sensor 2) 3 80 200 2
      (Sim.boot Sim.sensor 2 (Sim.ram_with 100 [16])) = Some (tt, s', t)
    /\ ram s' 100 = 16 /\ ram s' 202 = 0
    /\ buffer (ram s') 200 2 = twdr_loads t.
Proof.
  destruct (@caller_memory_frame atmega328 (Sim.peripheral Sim.sensor 2) 3
              80 200 2 100 1 200 2
              (Sim.boot Sim.sensor 2 (Sim.ram_with 100 [16])))
    as (_ & _ & O & _).
  destruct (returned _
              (@readAdress_returns atmega328 (Sim.peripheral Sim.sensor 2) 3
                 eq_refl (sim_responsive Sim.sensor 2 3 ltac:(lia))
                 80 200 2 (Sim.boot Sim.sensor 2 (Sim.ram_with 100 [16]))))
    as [[[[] s'] t] E].
  destruct (O _ _ _ E) as [F Bf].
  exists s', t. split; [exact E |]. split; [| split].
  - exact (F 100 ltac:(cbn; lia)).
  - exact (F 202 ltac:(cbn; lia)).
  - exact Bf.
Defined.

Lemma register_read_round_trip_witness :
  exists s' t,
    @i2c_readSequential atmega328 (Sim.peripheral Sim.sensor 2) 3
      80 100 1 200 2 (Sim.boot Sim.sensor 2 (Sim.ram_with 100 [16]))
    = Some (tt, s', t)
    /\ @bus_ops atmega328 t =
         [Start; WriteByte 160; WriteByte 16;
          Start; WriteByte 161; ReadByte true; ReadByte false; Stop]
    /\ twdr_loads t = [170; 187]
    /\ buffer (ram s') 200 2 = [170; 187].
Proof.
  exact (register_read_round_trip 2 3 100 200 (Sim.ram_with 100 [16])
           ltac:(lia) eq_refl).
Defined.

(** * Further properties of the driver *)

(** ** The configuration under the transactions *)

Section ConfigKept.

Context {B : TwiBits} {P : Peripheral}.
Variable fuel : nat.
Variable config : Dev -> twi_config.
Hypothesis twcr_ok : twcr_layout_ok B = true.
Hypothesis regs : holds_config config.

Lemma wait_config (n : nat) (r : reg) (b : Z) s x s' t :
  bitWaitHigh n r b s = Some (x, s', t) -> config (dev s') = config (dev s).
Proof.
  revert s t. induction n as [| n IH]; intros s t; cbn [bitWaitHigh];
    [discriminate |].
  intros H. apply bind_Some in H. destruct H as (v & s1 & t1 & t2 & L & K & ->).
  unfold load in L. pose proof (load_keeps config regs r (dev s)) as E.
  destruct (dev_load r (dev s)) as [v0 d]. cbn [snd] in E.
  injection L as <- <- <-.
  destruct (Z.testbit (u8 v0) b).
  - injection K as _ <- _. exact E.
  - apply IH in K. cbn [dev] in K. congruence.
Qed.

Lemma command_config (v : Z) s x s' t :
  Z.testbit (u8 v) TWEN = true ->
  bind (store TWCR v) (fun _ => bitWaitHigh fuel TWCR TWINT) s
  = Some (x, s', t) ->
  config (dev s') = with_enabled (config (dev s)).
Proof.
  intros Hv H. apply bind_Some in H.
  destruct H as (u & s1 & t1 & t2 & S1 & W & ->).
  unfold store in S1. injection S1 as _ <- _.
  apply wait_config in W. cbn [dev] in W.
  rewrite W, (store_TWCR config regs), Hv. reflexivity.
Qed.

Lemma twen_written (v : Z) :
  Z.testbit (u8 (Z.lor v (bit TWEN))) TWEN = true.
Proof.
  destruct (twcr_layout_facts twcr_ok) as ((_ & _ & _ & _ & Re) & _).
  rewrite u8_testbit, Z.lor_spec, bit_testbit, Z.eqb_refl, orb_true_r by lia.
  reflexivity.
Qed.

Lemma i2c_Start_config s x s' t :
  i2c_Start fuel s = Some (x, s', t) ->
  config (dev s') = with_enabled (config (dev s)).
Proof.
  unfold i2c_Start. apply command_config.
  rewrite <- Z.lor_assoc, (Z.lor_comm (bit TWEN)), Z.lor_assoc.
  apply twen_written.
Qed.

Lemma i2c_Stop_config s x s' t :
  i2c_Stop s = Some (x, s', t) ->
  config (dev s') = with_enabled (config (dev s)).
Proof.
  unfold i2c_Stop, store. intros H. injection H as _ <- _. cbn [dev].
  rewrite (store_TWCR config regs).
  rewrite <- Z.lor_assoc, (Z.lor_comm (bit TWEN)), Z.lor_assoc, twen_written.
  reflexivity.
Qed.

Lemma i2c_Write_config b s x s' t :
  i2c_Write fuel b s = Some (x, s', t) ->
  config (dev s') = with_enabled (config (dev s)).
Proof.
  unfold i2c_Write. intros H. apply bind_Some in H.
  destruct H as (u & s1 & t1 & t2 & S1 & H & ->).
  unfold store in S1. injection S1 as _ <- _.
  apply command_config in H; [| apply twen_written].
  cbn [dev] in H. rewrite (store_TWDR config regs) in H. exact H.
Qed.

Lemma i2c_Read_config ack s v s' t :
  i2c_Read fuel ack s = Some (v, s', t) ->
  config (dev s') = with_enabled (config (dev s)).
Proof.
  unfold i2c_Read. intros H.
  apply bind_Some in H. destruct H as (u & s1 & t1 & t2 & S1 & H & ->).
  apply bind_Some in H. destruct H as (u' & s2 & t3 & t4 & W & L & ->).
  unfold load in L. pose proof (load_keeps config regs TWDR (dev s2)) as E.
  destruct (dev_load TWDR (dev s2)) as [v0 d]. cbn [snd] in E.
  injection L as _ <- _. cbn [dev]. rewrite E.
  apply (command_config
           (Z.lor (Z.lor (bit TWINT) (Z.shiftl (Z.b2z ack) TWEA)) (bit TWEN))
           s u' s2 (t1 ++ t3));
    [apply twen_written |].
  unfold bind. rewrite S1, W. reflexivity.
Qed.

(** Once the module is enabled the loops leave the configuration alone. *)
Lemma write_loop_config (n : nat) (p : Z) s x s' t :
  write_loop fuel n p s = Some (x, s', t) ->
  config (dev s) = with_enabled (config (dev s)) ->
  config (dev s') = config (dev s).
Proof.
  revert p s t. induction n as [| n IH]; intros p s t H En;
    cbn [write_loop] in H.
  - unfold ret in H. injection H as _ <- _. reflexivity.
  - split_run H. unfold peek in E. injection E as _ <- _.
    apply i2c_Write_config in E0. apply IH in H.
    + congruence.
    + rewrite E0. reflexivity.
Qed.

Lemma read_loop_config (n : nat) (p : Z) s x s' t :
  read_loop fuel n p s = Some (x, s', t) ->
  config (dev s) = with_enabled (config (dev s)) ->
  config (dev s') = config (dev s).
Proof.
  revert p s t. induction n as [| n IH]; intros p s t H En;
    cbn [read_loop] in H.
  - unfold ret in H. injection H as _ <- _. reflexivity.
  - split_run H. unfold poke in E0. injection E0 as _ <- _.
    apply i2c_Read_config in E. apply IH in H; cbn [dev] in *.
    + congruence.
    + rewrite E. reflexivity.
Qed.

End ConfigKept.

(** The stores of the primitives and of the loops. *)
Section StoresKeepConfig.

Context {B : TwiBits} {P : Peripheral}.
Variable fuel : nat.
Hypothesis twcr_ok : twcr_layout_ok B = true.

Lemma polls_keep (t : list access) : polls t -> Forall keeps_config t.
Proof.
  induction 1 as [| e t [v ->] _ IH]; constructor; [exact I | exact IH].
Qed.

Lemma command_keeps (v : Z) s x s' t :
  Z.testbit (u8 v) TWEN = true ->
  bind (store TWCR v) (fun _ => bitWaitHigh fuel TWCR TWINT) s
  = Some (x, s', t) ->
  Forall keeps_config t.
Proof.
  intros Hv H. apply bind_Some in H.
  destruct H as (u & s1 & t1 & t2 & S1 & W & ->).
  unfold store in S1. injection S1 as _ _ <-.
  apply bitWaitHigh_spec in W. destruct W as [_ W].
  constructor; [exact Hv | apply polls_keep, W].
Qed.

Lemma i2c_Start_keeps s x s' t :
  i2c_Start fuel s = Some (x, s', t) -> Forall keeps_config t.
Proof.
  unfold i2c_Start. apply command_keeps.
  rewrite <- Z.lor_assoc, (Z.lor_comm (bit TWEN)), Z.lor_assoc.
  apply (twen_written twcr_ok).
Qed.

Lemma i2c_Stop_keeps s x s' t :
  i2c_Stop s = Some (x, s', t) -> Forall keeps_config t.
Proof.
  unfold i2c_Stop, store. intros H. injection H as _ _ <-.
  constructor; [| constructor]. cbn [keeps_config].
  rewrite <- Z.lor_assoc, (Z.lor_comm (bit TWEN)), Z.lor_assoc.
  apply (twen_written twcr_ok).
Qed.

Lemma i2c_Write_keeps b s x s' t :
  i2c_Write fuel b s = Some (x, s', t) -> Forall keeps_config t.
Proof.
  unfold i2c_Write. intros H. apply bind_Some in H.
  destruct H as (u & s1 & t1 & t2 & S1 & H & ->).
  unfold store in S1. injection S1 as _ _ <-.
  apply command_keeps in H; [| apply (twen_written twcr_ok)].
  constructor; [exact I | exact H].
Qed.

Lemma i2c_Read_keeps ack s v s' t :
  i2c_Read fuel ack s = Some (v, s', t) -> Forall keeps_config t.
Proof.
  unfold i2c_Read. intros H.
  apply bind_Some in H. destruct H as (u & s1 & t1 & t2 & S1 & H & ->).
  apply bind_Some in H. destruct H as (u' & s2 & t3 & t4 & W & L & ->).
  unfold load in L. destruct (dev_load TWDR (dev s2)) as [v0 d].
  injection L as _ _ <-.
  assert (K : Forall keeps_config (t1 ++ t3)).
  { apply (command_keeps
             (Z.lor (Z.lor (bit TWINT) (Z.shiftl (Z.b2z ack) TWEA)) (bit TWEN))
             s u' s2); [apply (twen_written twcr_ok) |].
    unfold bind. rewrite S1, W. reflexivity. }
  rewrite app_assoc. apply Forall_app. split; [exact K |].
  constructor; [exact I | constructor].
Qed.

Lemma write_loop_keeps (n : nat) (p : Z) s x s' t :
  write_loop fuel n p s = Some (x, s', t) -> Forall keeps_config t.
Proof.
  revert p s t. induction n as [| n IH]; intros p s t H; cbn [write_loop] in H.
  - unfold ret in H. injection H as _ _ <-. constructor.
  - split_run H. unfold peek in E. injection E as _ _ <-.
    apply i2c_Write_keeps in E0. apply IH in H.
    cbn [app]. apply Forall_app. split; assumption.
Qed.

Lemma read_loop_keeps (n : nat) (p : Z) s x s' t :
  read_loop fuel n p s = Some (x, s', t) -> Forall keeps_config t.
Proof.
  revert p s t. induction n as [| n IH]; intros p s t H; cbn [read_loop] in H.
  - unfold ret in H. injection H as _ _ <-. constructor.
  - split_run H. unfold poke in E0. injection E0 as _ _ <-.
    apply i2c_Read_keeps in E. apply IH in H.
    cbn [app]. apply Forall_app. split; assumption.
Qed.

End StoresKeepConfig.

(** After an initialisation the configuration is kept by whatever keeps
    the prescaler bits and the rate and enables the module. *)
Lemma after_init_config {B : TwiBits} {P : Peripheral}
    (config : Dev -> twi_config) (s0 s s' : machine) x0 t0 :
  twcr_layout_ok B = true -> twsr_layout_ok B = true ->
  holds_config config ->
  i2c_Init s0 = Some (x0, s, t0) ->
  config (dev s') = with_enabled (config (dev s)) ->
  config (dev s') =
  {| ps0 := false; ps1 := false; rate := 72; enabled := true |}.
Proof.
  intros L1 L2 R H K.
  destruct (init_config config L1 L2 R s0) as (s1 & t1 & E1 & C1).
  rewrite E1 in H. injection H as _ <- _. rewrite K, C1. reflexivity.
Qed.

(** X1.  The transactions never store to TWSR or to TWBR, and every
    command they store to TWCR writes TWEN as 1: so they never change the
    prescaler bits or the bit rate and leave the module enabled, and a
    transaction that follows an initialisation leaves the configuration at
    prescaler 1, rate 72, module enabled. *)
Theorem transactions_keep_config {B : TwiBits} {P : Peripheral}
    (fuel : nat) (config : Dev -> twi_config)
    (a p n ptx ntx prx nrx : Z) (s : machine) :
  twcr_layout_ok B = true -> twsr_layout_ok B = true ->
  holds_config config ->
  (forall x s' t,
     i2c_writeAddress fuel a p n s = Some (x, s', t) ->
     Forall keeps_config t
     /\ config (dev s') = with_enabled (config (dev s))
     /\ forall s0 x0 t0,
          i2c_Init s0 = Some (x0, s, t0) ->
          config (dev s') =
          {| ps0 := false; ps1 := false; rate := 72; enabled := true |})
  /\ (forall x s' t,
        i2c_readAdress fuel a p n s = Some (x, s', t) ->
        Forall keeps_config t
        /\ config (dev s') = with_enabled (config (dev s))
        /\ forall s0 x0 t0,
             i2c_Init s0 = Some (x0, s, t0) ->
             config (dev s') =
             {| ps0 := false; ps1 := false; rate := 72; enabled := true |})
  /\ (forall x s' t,
        i2c_readSequential fuel a ptx ntx prx nrx s = Some (x, s', t) ->
        Forall keeps_config t
        /\ config (dev s') = with_enabled (config (dev s))
        /\ forall s0 x0 t0,
             i2c_Init s0 = Some (x0, s, t0) ->
             config (dev s') =
             {| ps0 := false; ps1 := false; rate := 72; enabled := true |}).
Proof.
  intros L1 L2 R.
  assert (K : forall s' : machine,
             config (dev s') = with_enabled (config (dev s)) ->
             config (dev s') = with_enabled (config (dev s))
             /\ forall s0 x0 t0,
                  i2c_Init s0 = Some (x0, s, t0) ->
                  config (dev s') =
                  {| ps0 := false; ps1 := false; rate := 72;
                     enabled := true |}).
  { intros s' E. split; [exact E |]. intros s0 x0 t0 H.
    exact (after_init_config config s0 s s' x0 t0 L1 L2 R H E). }
  split; [| split]; intros x s' t H.
  - unfold i2c_writeAddress in H. split_run H. split.
    + apply (i2c_Start_keeps fuel L1) in E.
      apply (i2c_Write_keeps fuel L1) in E0.
      apply (write_loop_keeps fuel L1) in E1.
      apply (i2c_Stop_keeps L1) in H.
      repeat (apply Forall_app; split); assumption.
    + apply K.
      apply (i2c_Start_config fuel config L1 R) in E.
      apply (i2c_Write_config fuel config L1 R) in E0.
      apply (write_loop_config fuel config L1 R) in E1;
        [| rewrite E0; reflexivity].
      apply (i2c_Stop_config config L1 R) in H.
      rewrite H, E1, E0, E. reflexivity.
  - unfold i2c_readAdress in H. split_run H. split.
    + apply (i2c_Start_keeps fuel L1) in E.
      apply (i2c_Write_keeps fuel L1) in E0.
      apply (read_loop_keeps fuel L1) in E1.
      apply (i2c_Stop_keeps L1) in H.
      repeat (apply Forall_app; split); assumption.
    + apply K.
      apply (i2c_Start_config fuel config L1 R) in E.
      apply (i2c_Write_config fuel config L1 R) in E0.
      apply (read_loop_config fuel config L1 R) in E1;
        [| rewrite E0; reflexivity].
      apply (i2c_Stop_config config L1 R) in H.
      rewrite H, E1, E0, E. reflexivity.
  - unfold i2c_readSequential in H. split_run H. split.
    + apply (i2c_Start_keeps fuel L1) in E.
      apply (i2c_Write_keeps fuel L1) in E0.
      apply (write_loop_keeps fuel L1) in E1.
      apply (i2c_Start_keeps fuel L1) in E2.
      apply (i2c_Write_keeps fuel L1) in E3.
      apply (read_loop_keeps fuel L1) in E4.
      apply (i2c_Stop_keeps L1) in H.
      repeat (apply Forall_app; split); assumption.
    + apply K.
      apply (i2c_Start_config fuel config L1 R) in E.
      apply (i2c_Write_config fuel config L1 R) in E0.
      apply (write_loop_config fuel config L1 R) in E1;
        [| rewrite E0; reflexivity].
      apply (i2c_Start_config fuel config L1 R) in E2.
      apply (i2c_Write_config fuel config L1 R) in E3.
      apply (read_loop_config fuel config L1 R) in E4;
        [| rewrite E3; reflexivity].
      apply (i2c_Stop_config config L1 R) in H.
      rewrite H, E4, E3, E2, E1, E0, E. reflexivity.
Qed.

Lemma transactions_keep_config_witness :
  exists s1 t1 s2 t2,
    @i2c_Init atmega328 (Sim.peripheral Sim.sensor 2)
      (Sim.boot Sim.sensor 2 (fun _ => 0)) = Some (tt, s1, t1)
    /\ @i2c_readAdress atmega328 (Sim.peripheral Sim.sensor 2) 3 80 200 2 s1
       = Some (tt, s2, t2)
    /\ Forall (@keeps_config atmega328) t2
    /\ Sim.config (dev s2) =
       {| ps0 := false; ps1 := false; rate := 72; enabled := true |}.
Proof.
  destruct (returned _ (@i2c_Init_returns atmega328
                          (Sim.peripheral Sim.sensor 2)
                          (Sim.boot Sim.sensor 2 (fun _ => 0))))
    as [[[[] s1] t1] E1].
  destruct (returned _
              (@readAdress_returns atmega328 (Sim.peripheral Sim.sensor 2) 3
                 eq_refl (sim_responsive Sim.sensor 2 3 ltac:(lia))
                 80 200 2 s1))
    as [[[[] s2] t2] E2].
  destruct (@transactions_keep_config atmega328 (Sim.peripheral Sim.sensor 2)
              3 Sim.config 80 200 2 100 1 200 2 s1 eq_refl eq_refl
              (sim_holds_config Sim.sensor 2)) as (_ & K & _).
  destruct (K _ _ _ E2) as (F & _ & C).
  exists s1, t1, s2, t2. split; [exact E1 |]. split; [exact E2 |].
  split; [exact F | exact (C _ _ _ E1)].
Defined.

(** ** Polling without a timeout *)

Lemma wait_hangs {B : TwiBits} {P : Peripheral} (n : nat) (s : machine) :
  flag_never_raised -> bitWaitHigh n TWCR TWINT s = None.
Proof.
  intros Hd. revert s. induction n as [| n IH]; intros s; [reflexivity |].
  cbn [bitWaitHigh]. unfold bind, load. specialize (Hd (dev s)).
  destruct (dev_load TWCR (dev s)) as [v d]. cbn [fst] in Hd.
  rewrite Hd, IH. reflexivity.
Qed.

Lemma bind_hangs {P : Peripheral} {A C : Type} (m : M A) (f : A -> M C) s :
  m s = None -> bind m f s = None.
Proof. unfold bind. intros ->. reflexivity. Qed.

Lemma i2c_Start_hangs {B : TwiBits} {P : Peripheral} (fuel : nat) s :
  flag_never_raised -> i2c_Start fuel s = None.
Proof.
  intros Hd. unfold i2c_Start, bind, store. rewrite wait_hangs by exact Hd.
  reflexivity.
Qed.

(** X2.  The polling loops have no timeout: when the peripheral never shows
    TWINT as 1, a Start, a byte write, a byte read and every transaction
    return within no budget of polls, while the Stop, which does not poll,
    still returns. *)
Theorem no_flag_no_return {B : TwiBits} {P : Peripheral}
    (fuel : nat) (b a p n ptx ntx prx nrx : Z) (ack : bool) (s : machine) :
  flag_never_raised ->
  i2c_Start fuel s = None
  /\ i2c_Write fuel b s = None
  /\ i2c_Read fuel ack s = None
  /\ i2c_writeAddress fuel a p n s = None
  /\ i2c_readAdress fuel a p n s = None
  /\ i2c_readSequential fuel a ptx ntx prx nrx s = None
  /\ i2c_Stop s <> None.
Proof.
  intros Hd. repeat split.
  - apply i2c_Start_hangs, Hd.
  - unfold i2c_Write, bind, store. rewrite wait_hangs by exact Hd.
    reflexivity.
  - unfold i2c_Read, bind, store. rewrite wait_hangs by exact Hd.
    reflexivity.
  - unfold i2c_writeAddress. apply bind_hangs, i2c_Start_hangs, Hd.
  - unfold i2c_readAdress. apply bind_hangs, i2c_Start_hangs, Hd.
  - unfold i2c_readSequential. apply bind_hangs, i2c_Start_hangs, Hd.
  - unfold i2c_Stop, store. discriminate.
Qed.

Lemma no_flag_no_return_witness :
  @i2c_readSequential atmega328 unplugged 1000 80 100 1 200 2
    (@Build_machine unplugged tt (fun _ => 0)) = None
  /\ @i2c_Stop atmega328 unplugged (@Build_machine unplugged tt (fun _ => 0))
     <> None.
Proof.
  destruct (@no_flag_no_return atmega328 unplugged 1000 0 80 100 1 100 1
              200 2 true (@Build_machine unplugged tt (fun _ => 0))
              (fun d => eq_refl)) as (_ & _ & _ & _ & _ & H & K).
  split; [exact H | exact K].
Defined.

(** ** What a run depends on *)

Section Dependence.

Context {B : TwiBits} {P : Peripheral}.
Variable fuel : nat.
Variable R : Z -> Prop.

Lemma same_run_bind {A C : Type} (m : M A) (f : A -> M C) s1 s2 :
  same_run R (m s1) (m s2) ->
  (forall a s1' s2', agree_on R s1' s2' -> same_run R (f a s1') (f a s2')) ->
  same_run R (bind m f s1) (bind m f s2).
Proof.
  unfold bind. intros Hm Hf.
  destruct (m s1) as [[[a1 u1] t1] |], (m s2) as [[[a2 u2] t2] |];
    cbn [same_run] in Hm; try contradiction; [| exact I].
  destruct Hm as (<- & <- & Ha). specialize (Hf a1 u1 u2 Ha).
  destruct (f a1 u1) as [[[c1 w1] k1] |], (f a1 u2) as [[[c2 w2] k2] |];
    cbn [same_run] in *; try contradiction; [| exact I].
  destruct Hf as (<- & <- & Hw). auto.
Qed.

Lemma same_store (r : reg) (v : Z) s1 s2 :
  agree_on R s1 s2 -> same_run R (store r v s1) (store r v s2).
Proof.
  intros [Hd Hr]. unfold store. cbn [same_run]. rewrite Hd.
  repeat split. exact Hr.
Qed.

Lemma same_load (r : reg) s1 s2 :
  agree_on R s1 s2 -> same_run R (load r s1) (load r s2).
Proof.
  intros [Hd Hr]. unfold load. rewrite Hd.
  destruct (dev_load r (dev s2)) as [v d]. cbn [same_run].
  repeat split. exact Hr.
Qed.

Lemma same_ret {A : Type} (a : A) s1 s2 :
  agree_on R s1 s2 -> same_run R (ret a s1) (ret a s2).
Proof. intros H. unfold ret. cbn [same_run]. auto. Qed.

Lemma same_wait (n : nat) (r : reg) (b : Z) s1 s2 :
  agree_on R s1 s2 ->
  same_run R (bitWaitHigh n r b s1) (bitWaitHigh n r b s2).
Proof.
  revert s1 s2. induction n as [| n IH]; intros s1 s2 H; cbn [bitWaitHigh];
    [exact I |].
  apply same_run_bind; [apply same_load, H |].
  intros v u1 u2 Hu. destruct (Z.testbit v b); [apply same_ret | apply IH];
    exact Hu.
Qed.

Lemma same_peek (p : Z) s1 s2 :
  R p -> agree_on R s1 s2 -> same_run R (peek p s1) (peek p s2).
Proof.
  intros Hp H. unfold peek. cbn [same_run]. rewrite (proj2 H p Hp). auto.
Qed.

Lemma same_poke (p v : Z) s1 s2 :
  agree_on R s1 s2 -> same_run R (poke p v s1) (poke p v s2).
Proof.
  intros [Hd Hr]. unfold poke. cbn [same_run]. repeat split; [exact Hd |].
  intros q Hq. cbn [ram]. rewrite (Hr q Hq). reflexivity.
Qed.

Ltac same :=
  repeat first
    [ exact I
    | apply same_store; assumption
    | apply same_load; assumption
    | apply same_wait; assumption
    | apply same_poke; assumption
    | apply same_ret; assumption
    | apply same_run_bind; [| intros ? ? ? ?] ].

Lemma same_Start s1 s2 :
  agree_on R s1 s2 -> same_run R (i2c_Start fuel s1) (i2c_Start fuel s2).
Proof. intros H. unfold i2c_Start. same. Qed.

Lemma same_Stop s1 s2 :
  agree_on R s1 s2 -> same_run R (i2c_Stop s1) (i2c_Stop s2).
Proof. intros H. unfold i2c_Stop. same. Qed.

Lemma same_Write b s1 s2 :
  agree_on R s1 s2 -> same_run R (i2c_Write fuel b s1) (i2c_Write fuel b s2).
Proof. intros H. unfold i2c_Write. same. Qed.

Lemma same_Read ack s1 s2 :
  agree_on R s1 s2 ->
  same_run R (i2c_Read fuel ack s1) (i2c_Read fuel ack s2).
Proof. intros H. unfold i2c_Read. same. Qed.

Lemma same_write_loop (n : nat) (p : Z) s1 s2 :
  (forall q, p <= q < p + Z.of_nat n -> R q) ->
  agree_on R s1 s2 ->
  same_run R (write_loop fuel n p s1) (write_loop fuel n p s2).
Proof.
  revert p s1 s2. induction n as [| n IH]; intros p s1 s2 HR H;
    cbn [write_loop]; [apply same_ret, H |].
  apply same_run_bind; [apply same_peek; [apply HR; lia | exact H] |].
  intros v u1 u2 Hu.
  apply same_run_bind; [apply same_Write, Hu |].
  intros _ w1 w2 Hw. apply IH; [| exact Hw].
  intros q Hq. apply HR. lia.
Qed.

Lemma same_read_loop (n : nat) (p : Z) s1 s2 :
  agree_on R s1 s2 ->
  same_run R (read_loop fuel n p s1) (read_loop fuel n p s2).
Proof.
  revert p s1 s2. induction n as [| n IH]; intros p s1 s2 H;
    cbn [read_loop]; [apply same_ret, H |].
  apply same_run_bind; [apply same_Read, H |].
  intros v u1 u2 Hu.
  apply same_run_bind; [apply same_poke, Hu |].
  intros _ w1 w2 Hw. apply IH, Hw.
Qed.

End Dependence.

(** X5.  Of the caller's memory a run reads the transmit buffer only.  Run
    from two machines with the same peripheral state whose memories agree
    on the transmit buffer, a burst write or a write followed by a read
    hangs in both or returns in both with the same record of accesses and
    the same peripheral state; a burst read does so whatever the two
    memories hold, and fills the two receive buffers alike. *)
Theorem runs_read_tx_only {B : TwiBits} {P : Peripheral}
    (fuel : nat) (R : Z -> Prop) (a p n ptx ntx prx nrx : Z)
    (s1 s2 : machine) :
  agree_on R s1 s2 ->
  ((forall q, p <= q < p + u16 n -> R q) ->
   same_run R (i2c_writeAddress fuel a p n s1)
              (i2c_writeAddress fuel a p n s2))
  /\ ((forall q, ptx <= q < ptx + u16 ntx -> R q) ->
      same_run R (i2c_readSequential fuel a ptx ntx prx nrx s1)
                 (i2c_readSequential fuel a ptx ntx prx nrx s2))
  /\ same_run R (i2c_readAdress fuel a p n s1) (i2c_readAdress fuel a p n s2)
  /\ (forall x1 u1 t1 x2 u2 t2,
        i2c_readAdress fuel a p n s1 = Some (x1, u1, t1) ->
        i2c_readAdress fuel a p n s2 = Some (x2, u2, t2) ->
        buffer (ram u1) p (iterations n) = buffer (ram u2) p (iterations n)).
Proof.
  intros H.
  assert (I : forall k, Z.of_nat (iterations k) = u16 k).
  { intros k. unfold iterations. apply Z2Nat.id.
    unfold u16. apply Z.mod_pos_bound. lia. }
  assert (RD : same_run R (i2c_readAdress fuel a p n s1)
                          (i2c_readAdress fuel a p n s2)).
  { unfold i2c_readAdress.
    apply same_run_bind; [apply same_Start, H |]. intros _ u1 u2 Hu.
    apply same_run_bind; [apply same_Write, Hu |]. intros _ v1 v2 Hv.
    apply same_run_bind; [apply same_read_loop, Hv |]. intros _ w1 w2 Hw.
    apply same_Stop, Hw. }
  split; [| split; [| split]].
  - intros HR. unfold i2c_writeAddress.
    apply same_run_bind; [apply same_Start, H |]. intros _ u1 u2 Hu.
    apply same_run_bind; [apply same_Write, Hu |]. intros _ v1 v2 Hv.
    apply same_run_bind;
      [apply same_write_loop; [rewrite I; exact HR | exact Hv] |].
    intros _ w1 w2 Hw. apply same_Stop, Hw.
  - intros HR. unfold i2c_readSequential.
    apply same_run_bind; [apply same_Start, H |]. intros _ u1 u2 Hu.
    apply same_run_bind; [apply same_Write, Hu |]. intros _ v1 v2 Hv.
    apply same_run_bind;
      [apply same_write_loop; [rewrite I; exact HR | exact Hv] |].
    intros _ w1 w2 Hw.
    apply same_run_bind; [apply same_Start, Hw |]. intros _ u3 u4 Hu'.
    apply same_run_bind; [apply same_Write, Hu' |]. intros _ v3 v4 Hv'.
    apply same_run_bind; [apply same_read_loop, Hv' |]. intros _ w3 w4 Hw'.
    apply same_Stop, Hw'.
  - exact RD.
  - intros x1 u1 t1 x2 u2 t2 E1 E2. rewrite E1, E2 in RD.
    destruct RD as (_ & -> & _).
    apply readAdress_ram in E1. apply readAdress_ram in E2.
    rewrite (proj2 E1), (proj2 E2). reflexivity.
Qed.

Lemma runs_read_tx_only_witness :
  same_run (fun q => q = 100)
    (@i2c_writeAddress atmega328 (Sim.peripheral Sim.sensor 2) 3 80 100 1
       (Sim.boot Sim.sensor 2 (Sim.ram_with 100 [16])))
    (@i2c_writeAddress atmega328 (Sim.peripheral Sim.sensor 2) 3 80 100 1
       (Sim.boot Sim.sensor 2 (fun q => if q =? 100 then 16 else 99))).
Proof.
  refine (proj1
    (@runs_read_tx_only atmega328 (Sim.peripheral Sim.sensor 2) 3
       (fun q => q = 100) 80 100 1 100 1 200 2
       (Sim.boot Sim.sensor 2 (Sim.ram_with 100 [16]))
       (Sim.boot Sim.sensor 2 (fun q => if q =? 100 then 16 else 99)) _) _).
  - split; [reflexivity |]. intros q ->. reflexivity.
  - intros q Hq. change (u16 1) with 1 in Hq. lia.
Defined.

(** ** The end of a transaction *)

Lemma i2c_Stop_record {B : TwiBits} {P : Peripheral} s x s' t :
  i2c_Stop s = Some (x, s', t) -> t = [stop_store].
Proof.
  unfold i2c_Stop, store. intros H. injection H as _ _ <-. reflexivity.
Qed.

(** X6.  The Stop is commanded and not waited for: [i2c_Stop] makes the one
    store to TWCR and returns, whatever the peripheral does, and the record
    of every returning transaction ends with that store, with no read
    after it. *)
Theorem stop_not_awaited {B : TwiBits} {P : Peripheral}
    (fuel : nat) (a p n ptx ntx prx nrx : Z) (s : machine) :
  (exists s', i2c_Stop s = Some (tt, s', [stop_store]))
  /\ (forall x s' t,
        i2c_writeAddress fuel a p n s = Some (x, s', t) ->
        exists t0, t = t0 ++ [stop_store])
  /\ (forall x s' t,
        i2c_readAdress fuel a p n s = Some (x, s', t) ->
        exists t0, t = t0 ++ [stop_store])
  /\ (forall x s' t,
        i2c_readSequential fuel a ptx ntx prx nrx s = Some (x, s', t) ->
        exists t0, t = t0 ++ [stop_store]).
Proof.
  split; [eexists; reflexivity |].
  split; [| split]; intros x s' t H;
    unfold i2c_writeAddress, i2c_readAdress, i2c_readSequential in H;
    split_run H; apply i2c_Stop_record in H; subst;
    rewrite ?app_assoc; eexists; reflexivity.
Qed.

Lemma stop_not_awaited_witness :
  exists s' t t0,
    @i2c_readAdress atmega328 (Sim.peripheral Sim.sensor 2) 3 80 200 2
      (Sim.boot Sim.sensor 2 (fun _ => 0)) = Some (tt, s', t)
    /\ t = t0 ++ [Store TWCR 148].
Proof.
  destruct (returned _
              (@readAdress_returns atmega328 (Sim.peripheral Sim.sensor 2) 3
                 eq_refl (sim_responsive Sim.sensor 2 3 ltac:(lia))
                 80 200 2 (Sim.boot Sim.sensor 2 (fun _ => 0))))
    as [[[[] s'] t] E].
  destruct (@stop_not_awaited atmega328 (Sim.peripheral Sim.sensor 2) 3
              80 200 2 100 1 200 2 (Sim.boot Sim.sensor 2 (fun _ => 0)))
    as (_ & _ & K & _).
  destruct (K _ _ _ E) as [t0 T].
  exists s', t, t0. split; [exact E | exact T].
Defined.

(** ** How the transactions compose *)

(** X7.  On the bus a write followed by a read is a burst write with its
    Stop left out, followed by a burst read: the operations of
    [i2c_readSequential] are those of [i2c_writeAddress] on the same
    transmit buffer without the last one, then those of [i2c_readAdress]
    for the same address and count. *)
Theorem sequential_is_write_then_read {B : TwiBits} {P : Peripheral}
    (fuel : nat) (a ptx ntx prx nrx pr : Z) (s sr : machine) :
  twcr_layout_ok B = true ->
  forall x s' t xw sw tw xr sr' tr,
    i2c_readSequential fuel a ptx ntx prx nrx s = Some (x, s', t) ->
    i2c_writeAddress fuel a ptx ntx s = Some (xw, sw, tw) ->
    i2c_readAdress fuel a pr nrx sr = Some (xr, sr', tr) ->
    bus_ops t = removelast (bus_ops tw) ++ bus_ops tr.
Proof.
  intros L x s' t xw sw tw xr sr' tr H Hw Hr.
  apply (readSequential_spec fuel L) in H. destruct H as [(O & _) _].
  apply (writeAddress_spec fuel L) in Hw. destruct Hw as [_ (Ow & _)].
  apply (readAdress_spec fuel L) in Hr. destruct Hr as [(Or & _) _].
  rewrite O, Ow, Or.
  rewrite (app_assoc [Start; WriteByte (u8 (Z.lor (Z.shiftl (u8 a) 1) 0))]).
  rewrite removelast_last, <- !app_assoc. reflexivity.
Qed.

Lemma sequential_is_write_then_read_witness :
  exists s' t sw tw sr' tr,
    @i2c_readSequential atmega328 (Sim.peripheral Sim.sensor 2) 3
      80 100 1 200 2 (Sim.boot Sim.sensor 2 (Sim.ram_with 100 [16]))
    = Some (tt, s', t)
    /\ @i2c_writeAddress atmega328 (Sim.peripheral Sim.sensor 2) 3 80 100 1
         (Sim.boot Sim.sensor 2 (Sim.ram_with 100 [16])) = Some (tt, sw, tw)
    /\ @i2c_readAdress atmega328 (Sim.peripheral Sim.sensor 2) 3 80 200 2
         (Sim.boot Sim.sensor 2 (Sim.ram_with 100 [16])) = Some (tt, sr', tr)
    /\ @bus_ops atmega328 t =
       removelast (@bus_ops atmega328 tw) ++ @bus_ops atmega328 tr.
Proof.
  pose proof (sim_responsive Sim.sensor 2 3 ltac:(lia)) as A.
  destruct (returned _
              (@readSequential_returns atmega328 _ 3 eq_refl A
                 80 100 1 200 2
                 (Sim.boot Sim.sensor 2 (Sim.ram_with 100 [16]))))
    as [[[[] s'] t] E].
  destruct (returned _
              (@writeAddress_returns atmega328 _ 3 eq_refl A 80 100 1
                 (Sim.boot Sim.sensor 2 (Sim.ram_with 100 [16]))))
    as [[[[] sw] tw] Ew].
  destruct (returned _
              (@readAdress_returns atmega328 _ 3 eq_refl A 80 200 2
                 (Sim.boot Sim.sensor 2 (Sim.ram_with 100 [16]))))
    as [[[[] sr'] tr] Er].
  exists s', t, sw, tw, sr', tr. repeat split; try assumption.
  exact (@sequential_is_write_then_read atmega328 _ 3 80 100 1 200 2 200
           _ _ eq_refl _ _ _ _ _ _ _ _ _ E Ew Er).
Defined.

(** ** Waiting for the flag *)

Lemma bitWaitHigh_waited {B : TwiBits} {P : Peripheral} (n : nat) s x s' t :
  bitWaitHigh n TWCR TWINT s = Some (x, s', t) -> waited t.
Proof.
  revert s t. induction n as [| n IH]; intros s t; cbn [bitWaitHigh];
    [discriminate |].
  intros H. apply bind_Some in H. destruct H as (v & s1 & t1 & t2 & L & K & ->).
  unfold load in L. destruct (dev_load TWCR (dev s)) as [v0 d].
  injection L as <- <- <-.
  destruct (Z.testbit (u8 v0) TWINT) eqn:F.
  - injection K as _ _ <-. exists [], (u8 v0). repeat split; auto.
  - apply IH in K. destruct K as (vs & v & -> & Hvs & Hv).
    exists (u8 v0 :: vs), v. repeat split; auto.
Qed.

(** X8.  Each polling loop reads TWCR until the first value that shows
    TWINT set, and not once more: in the record of a returning Start, byte
    write or byte read, the command is followed by reads of TWCR that show
    TWINT clear and one last read that shows it set.  A byte write stores
    TWDR before the command, and a byte read loads TWDR only after that
    last read. *)
Theorem polls_until_flag {B : TwiBits} {P : Peripheral}
    (fuel : nat) (b : Z) (ack : bool) (s : machine) :
  (forall x s' t,
     i2c_Start fuel s = Some (x, s', t) ->
     exists w,
       t = Store TWCR (u8 (Z.lor (Z.lor (bit TWINT) (bit TWEN)) (bit TWSTA)))
           :: w
       /\ waited w)
  /\ (forall x s' t,
        i2c_Write fuel b s = Some (x, s', t) ->
        exists w,
          t = Store TWDR (u8 b)
              :: Store TWCR (u8 (Z.lor (bit TWINT) (bit TWEN))) :: w
          /\ waited w)
  /\ (forall v s' t,
        i2c_Read fuel ack s = Some (v, s', t) ->
        exists w,
          t = Store TWCR
                (u8 (Z.lor (Z.lor (bit TWINT) (Z.shiftl (Z.b2z ack) TWEA))
                           (bit TWEN)))
              :: w ++ [Load TWDR v]
          /\ waited w).
Proof.
  split; [| split].
  - intros x s' t H. unfold i2c_Start in H. split_run H.
    unfold store in E. injection E as _ _ <-.
    apply bitWaitHigh_waited in H. eexists. split; [reflexivity | exact H].
  - intros x s' t H. unfold i2c_Write in H. split_run H.
    unfold store in E, E0. injection E as _ _ <-. injection E0 as _ _ <-.
    apply bitWaitHigh_waited in H. rewrite u8_idem.
    eexists. split; [reflexivity | exact H].
  - intros v s' t H. unfold i2c_Read in H. split_run H.
    unfold store in E. injection E as _ _ <-.
    apply bitWaitHigh_waited in E0.
    unfold load in H. destruct (dev_load TWDR (dev s1)) as [v0 d].
    injection H as <- _ <-. eexists. split; [reflexivity | exact E0].
Qed.

Lemma polls_until_flag_witness :
  exists s' t w,
    @i2c_Start atmega328 (Sim.peripheral Sim.sensor 2) 3
      (Sim.boot Sim.sensor 2 (fun _ => 0)) = Some (tt, s', t)
    /\ t = Store TWCR 164 :: w
    /\ @waited atmega328 w.
Proof.
  destruct (returned _
              (@i2c_Start_returns atmega328 (Sim.peripheral Sim.sensor 2) 3
                 eq_refl (sim_responsive Sim.sensor 2 3 ltac:(lia))
                 (Sim.boot Sim.sensor 2 (fun _ => 0))))
    as [[[[] s'] t] E].
  destruct (@polls_until_flag atmega328 (Sim.peripheral Sim.sensor 2) 3 0
              true (Sim.boot Sim.sensor 2 (fun _ => 0))) as (K & _).
  destruct (K _ _ _ E) as (w & T & W).
  exists s', t, w. repeat split; assumption.
Defined.

(** ** The address byte read back *)



